(** * Compliance pipeline: transaction monitor, policy engine, risk scorer

    A shallow embedding of
    - [app/core/transaction_monitor.py] (class [TransactionMonitor]),
    - [app/ai/policy_engine.py] (class [PolicyEngine]),
    - [app/ai/risk_scorer.py] (class [RiskScorer]),
    together with the small part of Python's built-ins these classes rely on.

    Conventions.
    - Python [int] is [Z]; Python [float] is IEEE 754 binary64, i.e. Rocq's
      primitive [float], with CPython's conversions between the two.
    - Python [str] is [string]; the model covers ASCII text ([lower],
      [upper], whitespace and digits act on the ASCII range only).
    - A [dict] is an association list in insertion order; the first binding
      of a key is the live one.  A [set] of strings is a [gset string].
    - Code that can raise returns a [result]; code that mutates [self]
      takes the object and returns the updated one. *)

From Stdlib Require Import ZArith QArith Ascii Floats.
From stdpp Require Import gmap strings list sorting pretty.

#[local] Set Warnings "-inexact-float,-register-all".
#[local] Open Scope Z_scope.

(** ** Python built-ins *)

Module Py.

Inductive exn : Set :=
| ValueError | TypeError | OverflowError | AttributeError | OSError.

Inductive result (A : Type) : Type :=
| Ok (a : A)
| Raise (e : exn).
Arguments Ok {A} a.
Arguments Raise {A} e.

#[export] Instance result_ret : MRet result := fun _ a => Ok a.
#[export] Instance result_bind : MBind result := fun _ _ f m =>
  match m with Ok a => f a | Raise e => Raise e end.

(** Values that [json] decoding produces, except floats: [None], [bool],
    [int], [str], [list], and [dict] with string keys. *)
Inductive pyval : Type :=
| VNone
| VBool (b : bool)
| VInt (z : Z)
| VStr (s : string)
| VList (l : list pyval)
| VDict (d : list (string * pyval)).

Definition dict : Type := list (string * pyval).

(** *** [str] methods *)

Definition lower_ascii (c : ascii) : ascii :=
  let n := N_of_ascii c in
  if ((65 <=? n) && (n <=? 90))%N then ascii_of_N (n + 32) else c.

Definition upper_ascii (c : ascii) : ascii :=
  let n := N_of_ascii c in
  if ((97 <=? n) && (n <=? 122))%N then ascii_of_N (n - 32) else c.

Fixpoint str_map (f : ascii -> ascii) (s : string) : string :=
  match s with
  | EmptyString => EmptyString
  | String c r => String (f c) (str_map f r)
  end.

(** [s.lower()], [s.upper()] *)
Definition lower : string -> string := str_map lower_ascii.
Definition upper : string -> string := str_map upper_ascii.

(** [s.startswith(p)] *)
Definition startswith (s p : string) : bool := String.prefix p s.

(** [needle in hay] for two strings *)
Fixpoint str_contains (needle hay : string) : bool :=
  String.prefix needle hay ||
  match hay with
  | EmptyString => false
  | String _ r => str_contains needle r
  end.

(** [str(z)] for an [int] *)
Definition str_of_int (z : Z) : string := pretty z.

(** *** [int(x)] *)

Definition is_space (c : ascii) : bool :=
  let n := N_of_ascii c in
  (((9 <=? n) && (n <=? 13)) || (n =? 32))%N.

Definition digit_of (c : ascii) : option Z :=
  let n := N_of_ascii c in
  if ((48 <=? n) && (n <=? 57))%N then Some (Z.of_N n - 48) else None.

Fixpoint drop_spaces (l : list ascii) : list ascii :=
  match l with
  | c :: r => if is_space c then drop_spaces r else l
  | [] => []
  end.

Definition strip (l : list ascii) : list ascii :=
  rev (drop_spaces (rev (drop_spaces l))).

(** Decimal digits, where single underscores may separate digits. *)
Fixpoint parse_digits (acc : Z) (after_digit : bool) (l : list ascii)
  : option Z :=
  match l with
  | [] => if after_digit then Some acc else None
  | c :: r =>
      match digit_of c with
      | Some d => parse_digits (10 * acc + d) true r
      | None =>
          if Ascii.eqb c "_" && after_digit
          then match r with [] => None | _ => parse_digits acc false r end
          else None
      end
  end.

Definition int_of_str (s : string) : option Z :=
  match strip (String.list_ascii_of_string s) with
  | "+"%char :: r => parse_digits 0 false r
  | "-"%char :: r => Z.opp <$> parse_digits 0 false r
  | l => parse_digits 0 false l
  end.

(** [int(v)]: a string is parsed ([ValueError] when it is no decimal
    literal), a number is taken as it is, anything else is a
    [TypeError].  The interpreter's optional limit on the number of
    digits of a literal is not modelled. *)
Definition int (v : pyval) : result Z :=
  match v with
  | VInt z => Ok z
  | VBool b => Ok (if b then 1 else 0)
  | VStr s => match int_of_str s with Some z => Ok z | None => Raise ValueError end
  | VNone | VList _ | VDict _ => Raise TypeError
  end.

(** *** Truth value, [dict] access, iteration *)

Definition truthy (v : pyval) : bool :=
  match v with
  | VNone => false
  | VBool b => b
  | VInt z => negb (z =? 0)
  | VStr s => negb (String.eqb s "")
  | VList l => match l with [] => false | _ => true end
  | VDict d => match d with [] => false | _ => true end
  end.

Fixpoint dict_lookup {V : Type} (k : string) (d : list (string * V))
  : option V :=
  match d with
  | [] => None
  | (k', v) :: r => if String.eqb k k' then Some v else dict_lookup k r
  end.

(** [d.get(k, dflt)] *)
Definition get {V : Type} (d : list (string * V)) (k : string) (dflt : V) : V :=
  default dflt (dict_lookup k d).

(** [d[k] = v]: an existing key keeps its position. *)
Fixpoint dict_set {V : Type} (k : string) (v : V) (d : list (string * V))
  : list (string * V) :=
  match d with
  | [] => [(k, v)]
  | (k', v') :: r =>
      if String.eqb k k' then (k, v) :: r else (k', v') :: dict_set k v r
  end.

(** [del d[k]] for a key that is present (no change otherwise). *)
Fixpoint dict_del {V : Type} (k : string) (d : list (string * V))
  : list (string * V) :=
  match d with
  | [] => []
  | (k', v') :: r =>
      if String.eqb k k' then r else (k', v') :: dict_del k r
  end.

Fixpoint chars (s : string) : list pyval :=
  match s with
  | EmptyString => []
  | String c r => VStr (String c EmptyString) :: chars r
  end.

(** The items [for x in v] runs over. *)
Definition iter (v : pyval) : result (list pyval) :=
  match v with
  | VList l => Ok l
  | VStr s => Ok (chars s)
  | VDict d => Ok (VStr <$> d.*1)
  | VNone | VBool _ | VInt _ => Raise TypeError
  end.

(** [v.lower()] on an arbitrary value *)
Definition lower_of (v : pyval) : result string :=
  match v with
  | VStr s => Ok (lower s)
  | _ => Raise AttributeError
  end.

(** [s == v] for a string [s] *)
Definition str_eq (s : string) (v : pyval) : bool :=
  match v with VStr t => String.eqb s t | _ => false end.

(** [s in v] for a string [s] *)
Definition str_in (s : string) (v : pyval) : result bool :=
  match v with
  | VList l => Ok (existsb (str_eq s) l)
  | VStr t => Ok (str_contains s t)
  | VDict d => Ok (existsb (String.eqb s) d.*1)
  | VNone | VBool _ | VInt _ => Raise TypeError
  end.

(** [z > v] for an [int] z *)
Definition int_gt (z : Z) (v : pyval) : result bool :=
  match v with
  | VInt m => Ok (m <? z)
  | VBool b => Ok ((if b then 1 else 0) <? z)
  | VNone | VStr _ | VList _ | VDict _ => Raise TypeError
  end.

(** [f"{v}"] for the values the engine formats *)
Definition str_of (v : pyval) : string :=
  match v with
  | VNone => "None"
  | VBool b => if b then "True" else "False"
  | VInt z => str_of_int z
  | VStr s => s
  | VList _ | VDict _ => ""
  end.

(** *** [float] *)

(** [float(z)] as arithmetic on an [int] operand performs it: the nearest
    binary64 value, ties to even; [OverflowError] beyond the range. *)
Definition float_of_int (z : Z) : result float :=
  let f := SF2Prim (binary_normalize prec emax z 0 false) in
  if PrimFloat.is_infinity f then Raise OverflowError else Ok f.

(** [int(f)]: truncation toward zero; [nan] and the infinities raise. *)
Definition int_of_float (f : float) : result Z :=
  match Prim2SF f with
  | S754_zero _ => Ok 0
  | S754_finite s m e =>
      let mag := if 0 <=? e then Z.pos m * 2 ^ e else Z.pos m / 2 ^ (- e) in
      Ok (if s then - mag else mag)
  | S754_infinity _ => Raise OverflowError
  | S754_nan => Raise ValueError
  end.

(** [z * w] for an [int] z and a [float] w *)
Definition int_mul_float (z : Z) (w : float) : result float :=
  f ← float_of_int z; Ok (PrimFloat.mul f w).

End Py.
Import Py.

(** ** [app/ai/policy_engine.py] *)

Module PolicyEngine.

Inductive PolicySeverity : Set := INFO | LOW | MEDIUM | HIGH | CRITICAL.

(** [severity.value] *)
Definition severity_value (s : PolicySeverity) : string :=
  match s with
  | INFO => "info" | LOW => "low" | MEDIUM => "medium"
  | HIGH => "high" | CRITICAL => "critical"
  end.

Inductive PolicyType : Set :=
| TRANSACTION_VALUE | BLOCKED_ADDRESS | GAS_LIMIT
| FUNCTION_CALL | CONTRACT_INTERACTION | CUSTOM.

(** The [timestamp] fields ([datetime.now] at creation) are left out of
    the three records. *)
Record PolicyViolation : Type := {
  policy_name : string;
  violation_type : PolicyType;
  violation_severity : PolicySeverity;
  message : string;
  details : dict
}.

Record CompliancePolicy : Type := {
  name : string;
  policy_type : PolicyType;
  severity : PolicySeverity;
  description : string;
  enabled : bool;
  config : dict
}.

Record ComplianceResult : Type := {
  passed : bool;
  violations : list PolicyViolation;
  policies_checked : Z
}.

(** The engine object: the policy registry (a [dict] by policy name) and
    the cache of blocked addresses. *)
Record engine : Type := {
  _policies : list (string * CompliancePolicy);
  _blocked_addresses : gset string
}.

(** A method that mutates the engine returns the engine as the call
    leaves it and the exception that ended the call, if any. *)
Definition effect : Type := engine * option exn.

Definition and_then (r : effect) (f : engine -> effect) : effect :=
  match r with
  | (self, None) => f self
  | (self, Some e) => (self, Some e)
  end.

(** [cache.update(addr.lower() for addr in items)]: the items before a
    failing one have been added when the exception leaves. *)
Fixpoint update_lower (cache : gset string) (items : list pyval)
  : gset string * option exn :=
  match items with
  | [] => (cache, None)
  | addr :: rest =>
      match lower_of addr with
      | Ok a => update_lower ({[a]} ∪ cache) rest
      | Raise e => (cache, Some e)
      end
  end.

Definition add_policy (self : engine) (policy : CompliancePolicy) : effect :=
  let policies := dict_set (name policy) policy (_policies self) in
  match policy_type policy with
  | BLOCKED_ADDRESS =>
      let addresses := get (config policy) "addresses" (VList []) in
      match iter addresses with
      | Ok items =>
          let '(cache, e) := update_lower (_blocked_addresses self) items in
          ({| _policies := policies; _blocked_addresses := cache |}, e)
      | Raise e =>
          ({| _policies := policies;
              _blocked_addresses := _blocked_addresses self |}, Some e)
      end
  | _ =>
      ({| _policies := policies;
          _blocked_addresses := _blocked_addresses self |}, None)
  end.

Definition remove_policy (self : engine) (policy_name : string) : engine :=
  {| _policies := dict_del policy_name (_policies self);
     _blocked_addresses := _blocked_addresses self |}.

Definition get_policy (self : engine) (policy_name : string)
  : option CompliancePolicy :=
  dict_lookup policy_name (_policies self).

Definition list_policies (self : engine) : list CompliancePolicy :=
  (_policies self).*2.

Definition set_config (policy : CompliancePolicy) (c : dict)
  : CompliancePolicy :=
  {| name := name policy; policy_type := policy_type policy;
     severity := severity policy; description := description policy;
     enabled := enabled policy; config := c |}.

(** The list under ["addresses"] is appended to in place; it is taken to
    belong to this policy alone. *)
Definition add_blocked_address (self : engine) (address : string) : effect :=
  let self1 :=
    {| _policies := _policies self;
       _blocked_addresses := {[lower address]} ∪ _blocked_addresses self |} in
  match dict_lookup "blocked_addresses" (_policies self) with
  | None => (self1, None)
  | Some policy =>
      let addresses := get (config policy) "addresses" (VList []) in
      match str_in address addresses with
      | Raise e => (self1, Some e)
      | Ok true => (self1, None)
      | Ok false =>
          match addresses with
          | VList l =>
              let policy' :=
                set_config policy
                  (dict_set "addresses" (VList (l ++ [VStr address]))
                     (config policy)) in
              ({| _policies :=
                    dict_set "blocked_addresses" policy' (_policies self);
                  _blocked_addresses := _blocked_addresses self1 |}, None)
          | _ => (self1, Some AttributeError)
          end
      end
  end.

Definition remove_blocked_address (self : engine) (address : string) : engine :=
  {| _policies := _policies self;
     _blocked_addresses := _blocked_addresses self ∖ {[lower address]} |}.

Definition violation (policy : CompliancePolicy) (msg : string) (d : dict)
  : PolicyViolation :=
  {| policy_name := name policy; violation_type := policy_type policy;
     violation_severity := severity policy; message := msg; details := d |}.

(** [sender.lower() if sender else ""] *)
Definition sender_lower (sender : string) : string :=
  if String.eqb sender "" then "" else lower sender.

(** [receiver.lower() if receiver else ""] *)
Definition receiver_lower (receiver : option string) : string :=
  match receiver with
  | Some r => if String.eqb r "" then "" else lower r
  | None => ""
  end.

Definition opt_str (o : option string) : pyval :=
  match o with Some s => VStr s | None => VNone end.

(** The loop over [blocked_contracts] of the contract-interaction check. *)
Fixpoint check_contracts (policy : CompliancePolicy) (func : pyval)
    (blocked_contracts : list pyval) : result (option PolicyViolation) :=
  match blocked_contracts with
  | [] => Ok None
  | contract :: rest =>
      c ← lower_of contract;
      f ← lower_of func;
      if str_contains c f
      then Ok (Some (violation policy
                 ("Interaction with suspicious contract: " +:+ str_of contract)
                 [("contract", contract); ("function", func)]))
      else check_contracts policy func rest
  end.

Definition _check_policy (self : engine) (policy : CompliancePolicy)
    (sender : string) (receiver : option string) (value gas_used : Z)
    (payload : option dict) : result (option PolicyViolation) :=
  match policy_type policy with
  | TRANSACTION_VALUE =>
      match dict_lookup "max_value" (config policy) with
      | None => Ok None  (* the default is float("inf"); no int exceeds it *)
      | Some max_value =>
          over ← int_gt value max_value;
          if over : bool
          then Ok (Some (violation policy
                     ("Transaction value " +:+ str_of_int value +:+
                      " exceeds maximum " +:+ str_of max_value)
                     [("value", VInt value); ("max_value", max_value)]))
          else Ok None
      end
  | BLOCKED_ADDRESS =>
      if bool_decide (sender_lower sender ∈ _blocked_addresses self)
      then Ok (Some (violation policy
                 ("Sender " +:+ sender +:+ " is blocked")
                 [("blocked_address", VStr sender); ("role", VStr "sender")]))
      else if bool_decide (receiver_lower receiver ∈ _blocked_addresses self)
      then Ok (Some (violation policy
                 ("Receiver " +:+ str_of (opt_str receiver) +:+ " is blocked")
                 [("blocked_address", opt_str receiver);
                  ("role", VStr "receiver")]))
      else Ok None
  | GAS_LIMIT =>
      match dict_lookup "max_gas" (config policy) with
      | None => Ok None  (* the default is float("inf") *)
      | Some max_gas =>
          over ← int_gt gas_used max_gas;
          if over : bool
          then Ok (Some (violation policy
                     ("Gas usage " +:+ str_of_int gas_used +:+
                      " exceeds threshold " +:+ str_of max_gas)
                     [("gas_used", VInt gas_used); ("max_gas", max_gas)]))
          else Ok None
      end
  | CONTRACT_INTERACTION =>
      match payload with
      | Some ((_ :: _) as p) =>
          let func := get p "function" (VStr "") in
          let blocked_contracts := get (config policy) "contracts" (VList []) in
          items ← iter blocked_contracts;
          check_contracts policy func items
      | _ => Ok None
      end
  | FUNCTION_CALL | CUSTOM => Ok None
  end.

(** The loop of [check_transaction] over [self._policies.values()],
    carrying [violations] and [policies_checked]. *)
Fixpoint check_loop (self : engine) (policies : list CompliancePolicy)
    (sender : string) (receiver : option string) (value gas_used : Z)
    (payload : option dict)
    (violations : list PolicyViolation) (policies_checked : Z)
  : result (list PolicyViolation * Z) :=
  match policies with
  | [] => Ok (violations, policies_checked)
  | policy :: rest =>
      if enabled policy then
        v ← _check_policy self policy sender receiver value gas_used payload;
        check_loop self rest sender receiver value gas_used payload
          (match v with Some x => violations ++ [x] | None => violations end)
          (policies_checked + 1)
      else
        check_loop self rest sender receiver value gas_used payload
          violations policies_checked
  end.

Definition check_transaction (self : engine) (sender : string)
    (receiver : option string) (value gas_used : Z) (payload : option dict)
  : result ComplianceResult :=
  '(vs, n) ← check_loop self (_policies self).*2 sender receiver value
               gas_used payload [] 0;
  Ok {| passed := bool_decide (length vs = 0%nat);
        violations := vs; policies_checked := n |}.

Definition default_policies : list CompliancePolicy :=
  [ {| name := "max_transaction_value"; policy_type := TRANSACTION_VALUE;
       severity := HIGH;
       description := "Flag transactions exceeding maximum allowed value";
       enabled := true; config := [("max_value", VInt 1000000000000)] |};
    {| name := "high_gas_warning"; policy_type := GAS_LIMIT;
       severity := MEDIUM;
       description := "Flag transactions with unusually high gas usage";
       enabled := true; config := [("max_gas", VInt 100000)] |};
    {| name := "blocked_addresses"; policy_type := BLOCKED_ADDRESS;
       severity := CRITICAL;
       description := "Block transactions involving sanctioned addresses";
       enabled := true; config := [("addresses", VList [])] |};
    {| name := "suspicious_contracts"; policy_type := CONTRACT_INTERACTION;
       severity := HIGH;
       description := "Flag interactions with known malicious contracts";
       enabled := true; config := [("contracts", VList [])] |} ].

Definition _load_default_policies (self : engine) : effect :=
  foldl (fun r p => and_then r (fun s => add_policy s p)) (self, None)
    default_policies.

(** [PolicyEngine()] *)
Definition __init__ : engine :=
  fst (_load_default_policies {| _policies := []; _blocked_addresses := ∅ |}).

Definition severity_eqb (a b : PolicySeverity) : bool :=
  match a, b with
  | INFO, INFO | LOW, LOW | MEDIUM, MEDIUM | HIGH, HIGH
  | CRITICAL, CRITICAL => true
  | _, _ => false
  end.

(** [policy_type.value] *)
Definition type_value (t : PolicyType) : string :=
  match t with
  | TRANSACTION_VALUE => "transaction_value"
  | BLOCKED_ADDRESS => "blocked_address"
  | GAS_LIMIT => "gas_limit"
  | FUNCTION_CALL => "function_call"
  | CONTRACT_INTERACTION => "contract_interaction"
  | CUSTOM => "custom"
  end.

Definition type_eqb (a b : PolicyType) : bool :=
  String.eqb (type_value a) (type_value b).

(** [sum(1 for p in self._policies.values() if f(p))] *)
Definition count_policies (f : CompliancePolicy -> bool) (self : engine) : Z :=
  Z.of_nat (length (List.filter f (list_policies self))).

Definition get_policy_stats (self : engine) : dict :=
  [ ("total_policies", VInt (Z.of_nat (length (_policies self))));
    ("enabled_policies", VInt (count_policies enabled self));
    ("blocked_addresses", VInt (Z.of_nat (size (_blocked_addresses self))));
    ("by_severity",
     VDict ((fun sev =>
               (severity_value sev,
                VInt (count_policies
                        (fun p => severity_eqb (severity p) sev) self)))
              <$> [INFO; LOW; MEDIUM; HIGH; CRITICAL]));
    ("by_type",
     VDict ((fun pt =>
               (type_value pt,
                VInt (count_policies
                        (fun p => type_eqb (policy_type p) pt) self)))
              <$> [TRANSACTION_VALUE; BLOCKED_ADDRESS; GAS_LIMIT;
                   FUNCTION_CALL; CONTRACT_INTERACTION; CUSTOM])) ].

End PolicyEngine.

(** ** [app/api/routes/compliance.py]: the route that toggles a policy *)

Module ComplianceRoutes.
Import PolicyEngine.

(** [toggle_policy(name)] on the engine: [None] is the 404 answer for an
    unknown name.  Otherwise the registered policy object has its
    [enabled] flag flipped in place and is handed to [add_policy] again;
    the answer is the new flag, or what [add_policy] raised. *)
Definition toggle_policy (self : engine) (policy_name : string)
  : option (engine * result bool) :=
  match get_policy self policy_name with
  | None => None
  | Some policy =>
      let policy' :=
        {| name := name policy; policy_type := policy_type policy;
           severity := severity policy; description := description policy;
           enabled := negb (enabled policy); config := config policy |} in
      let self1 :=
        {| _policies := dict_set policy_name policy' (_policies self);
           _blocked_addresses := _blocked_addresses self |} in
      match add_policy self1 policy' with
      | (self2, None) => Some (self2, Ok (enabled policy'))
      | (self2, Some e) => Some (self2, Raise e)
      end
  end.

End ComplianceRoutes.

(** ** [app/ai/vulnerability.py] *)

Module Vulnerability.

(** Modelled from the spec: [app/ai/vulnerability.py] is not part of the
    sources.  A vulnerability carries a severity label (the [value] of
    its [VulnerabilitySeverity]) and a title; a report carries the list
    of vulnerabilities and the four per-severity counts the scorer
    reads. *)
Record Vulnerability : Type := {
  severity : string;
  title : string
}.

Record VulnerabilityReport : Type := {
  vulnerabilities : list Vulnerability;
  critical_count : Z;
  high_count : Z;
  medium_count : Z;
  low_count : Z
}.

Definition count (label : string) (vs : list Vulnerability) : Z :=
  Z.of_nat (length (filter (fun v => severity v = label) vs)).

(** Modelled from the spec: a report whose counts are the numbers of
    listed vulnerabilities of each severity. *)
Definition report (vs : list Vulnerability) : VulnerabilityReport :=
  {| vulnerabilities := vs;
     critical_count := count "critical" vs;
     high_count := count "high" vs;
     medium_count := count "medium" vs;
     low_count := count "low" vs |}.

End Vulnerability.

(** ** [app/ai/anomaly.py]: the report types *)

Module Anomaly.

Record AnomalyFinding : Type := {
  category : string;
  severity : string;
  title : string;
  description : string;
  confidence : float;
  evidence : list string;
  recommendations : list string
}.

(** The [timestamp] field is left out. *)
Record AnomalyReport : Type := {
  analysis_type : string;
  target : string;
  findings : list AnomalyFinding;
  summary : string;
  risk_assessment : string
}.

End Anomaly.

(** ** [app/ai/risk_scorer.py] *)

Module RiskScorer.

Inductive RiskLevel : Set := SAFE | LOW | MEDIUM | HIGH | CRITICAL.

(** The [timestamp] field is left out. *)
Record RiskScore : Type := {
  score : Z;
  level : RiskLevel;
  breakdown : list (string * Z);
  factors : list string;
  recommendations : list string
}.

Definition WEIGHTS : list (string * float) :=
  [("compliance", 0.35%float); ("vulnerability", 0.40%float);
   ("anomaly", 0.25%float)].

(** [self.WEIGHTS[k]] for one of the three keys *)
Definition weight (k : string) : float := get WEIGHTS k 0%float.

Definition SEVERITY_SCORES : list (string * Z) :=
  [("info", 5); ("low", 15); ("medium", 35); ("high", 65); ("critical", 95)].

Definition _score_compliance (result : PolicyEngine.ComplianceResult) : Z :=
  match PolicyEngine.violations result with
  | [] => 0
  | vs =>
      let max_severity :=
        foldl (fun max_severity violation =>
                 let severity_score :=
                   get SEVERITY_SCORES
                     (PolicyEngine.severity_value
                        (PolicyEngine.violation_severity violation)) 0 in
                 Z.max max_severity severity_score) 0 vs in
      let violation_count_bonus := Z.min (Z.of_nat (length vs) * 5) 25 in
      Z.min 100 (max_severity + violation_count_bonus)
  end.

Definition _score_vulnerabilities (report : Vulnerability.VulnerabilityReport)
  : Z :=
  match Vulnerability.vulnerabilities report with
  | [] => 0
  | vs =>
      let max_severity :=
        foldl (fun max_severity vuln =>
                 let severity_score :=
                   get SEVERITY_SCORES (Vulnerability.severity vuln) 0 in
                 Z.max max_severity severity_score) 0 vs in
      let count_bonus :=
        Vulnerability.critical_count report * 15 +
        Vulnerability.high_count report * 10 +
        Vulnerability.medium_count report * 5 +
        Vulnerability.low_count report * 2 in
      Z.min 100 (max_severity + Z.min count_bonus 30)
  end.

(** The loop of [_score_anomalies]; [int(severity_score * confidence)]
    raises when the product is [nan] or infinite. *)
Fixpoint max_weighted (max_severity : Z) (fs : list Anomaly.AnomalyFinding)
  : result Z :=
  match fs with
  | [] => Ok max_severity
  | finding :: rest =>
      let severity_score :=
        get SEVERITY_SCORES (Anomaly.severity finding) 0 in
      p ← int_mul_float severity_score (Anomaly.confidence finding);
      weighted_score ← int_of_float p;
      max_weighted (Z.max max_severity weighted_score) rest
  end.

Definition _score_anomalies (report : Anomaly.AnomalyReport) : result Z :=
  match Anomaly.findings report with
  | [] => Ok 0
  | fs =>
      max_severity ← max_weighted 0 fs;
      let count_bonus := Z.min (Z.of_nat (length fs) * 5) 20 in
      Ok (Z.min 100 (max_severity + count_bonus))
  end.

Definition _score_to_level (score : Z) : RiskLevel :=
  if score <? 10 then SAFE
  else if score <? 30 then LOW
  else if score <? 55 then MEDIUM
  else if score <? 80 then HIGH
  else CRITICAL.

(** [list(dict.fromkeys(l))]: the first occurrence of each string, in
    order. *)
Fixpoint fromkeys (seen l : list string) : list string :=
  match l with
  | [] => []
  | x :: r =>
      if existsb (String.eqb x) seen then fromkeys seen r
      else x :: fromkeys (x :: seen) r
  end.

(** [total_score, total_weight] after one more category; both start as
    the [int] 0, which the first addition converts: [0 + x] is
    [0.0 + x]. *)
Definition accumulate (acc : float * float) (k : string) (present : bool)
    (sub_score : Z) : result (float * float) :=
  if present then
    x ← int_mul_float sub_score (weight k);
    Ok (PrimFloat.add (fst acc) x, PrimFloat.add (snd acc) (weight k))
  else Ok acc.

Definition calculate_risk_score
    (compliance_result : option PolicyEngine.ComplianceResult)
    (vulnerability_report : option Vulnerability.VulnerabilityReport)
    (anomaly_report : option Anomaly.AnomalyReport) : result RiskScore :=
  let breakdown : list (string * Z) := [] in
  let factors : list string := [] in
  let recommendations : list string := [] in
  (* Calculate compliance score *)
  let '(compliance_score, breakdown, factors, recommendations) :=
    match compliance_result with
    | Some r =>
        let compliance_score := _score_compliance r in
        let breakdown := dict_set "compliance" compliance_score breakdown in
        match PolicyEngine.violations r with
        | [] => (compliance_score, breakdown, factors, recommendations)
        | vs =>
            (compliance_score, breakdown,
             factors ++
             ((fun v => "Policy violation: " +:+ PolicyEngine.message v) <$> vs),
             recommendations ++ ["Review and address policy violations"])
        end
    | None => (0, breakdown, factors, recommendations)
    end in
  (* Calculate vulnerability score *)
  let '(vuln_score, breakdown, factors, recommendations) :=
    match vulnerability_report with
    | Some r =>
        let vuln_score := _score_vulnerabilities r in
        let breakdown := dict_set "vulnerability" vuln_score breakdown in
        match Vulnerability.vulnerabilities r with
        | [] => (vuln_score, breakdown, factors, recommendations)
        | vs =>
            (vuln_score, breakdown,
             factors ++
             ((fun v => upper (Vulnerability.severity v) +:+ ": " +:+
                        Vulnerability.title v) <$> vs),
             recommendations ++
             (if 0 <? Vulnerability.critical_count r
              then ["Address critical vulnerabilities immediately"] else []) ++
             (if 0 <? Vulnerability.high_count r
              then ["Review and fix high-severity issues"] else []))
        end
    | None => (0, breakdown, factors, recommendations)
    end in
  (* Calculate anomaly score *)
  '(anomaly_score, breakdown, factors, recommendations) ←
    match anomaly_report with
    | Some r =>
        anomaly_score ← _score_anomalies r;
        Ok (anomaly_score,
            dict_set "anomaly" anomaly_score breakdown,
            factors ++
            ((fun f => upper (Anomaly.severity f) +:+ ": " +:+ Anomaly.title f)
               <$> Anomaly.findings r),
            recommendations ++
            concat (Anomaly.recommendations <$> Anomaly.findings r))
    | None => Ok (0, breakdown, factors, recommendations)
    end;
  (* Calculate weighted total *)
  totals ← accumulate (0%float, 0%float) "compliance"
             (bool_decide (is_Some compliance_result)) compliance_score;
  totals ← accumulate totals "vulnerability"
             (bool_decide (is_Some vulnerability_report)) vuln_score;
  totals ← accumulate totals "anomaly"
             (bool_decide (is_Some anomaly_report)) anomaly_score;
  let '(total_score, total_weight) := totals in
  (* Normalize if not all analyses present *)
  final_score ←
    (if PrimFloat.ltb 0%float total_weight
     then int_of_float (PrimFloat.div total_score total_weight)
     else Ok 0);
  let final_score := Z.max 0 (Z.min 100 final_score) in
  Ok {| score := final_score;
        level := _score_to_level final_score;
        breakdown := breakdown;
        factors := take 10 factors;
        recommendations := take 5 (fromkeys [] recommendations) |}.

End RiskScorer.

(** ** [app/core/transaction_monitor.py] *)

Module TransactionMonitor.

(** A [datetime] is kept symbolic: the local time of a number of
    microseconds since the epoch, or the clock's reading when the event
    was parsed. *)
Inductive datetime : Set :=
| FromTimestamp (microseconds : Z)   (* datetime.fromtimestamp(z / 1_000_000) *)
| Now.                               (* datetime.now() *)

Record TransactionEvent : Type := {
  hash : pyval;
  version : Z;
  sender : pyval;
  type : pyval;
  timestamp : datetime;
  success : pyval;
  gas_used : Z;
  payload : pyval;
  changes : pyval;
  raw : dict
}.

(** The monitor object.  [settings], [_running] and [_task] play no part
    in a poll iteration and are left out.  The two callback registries are
    represented by
    [notified], the events [_notify_callbacks] was called with, oldest
    first: each call hands the event to every registered callback and
    swallows what a callback raises, so the registries do not influence
    the monitor's own state.  Callbacks are taken not to call back into
    the monitor. *)
Record monitor : Type := {
  _last_version : option Z;
  _recent_transactions : list TransactionEvent;
  _monitored_addresses : gset string;
  notified : list TransactionEvent
}.

Definition __init__ : monitor :=
  {| _last_version := None; _recent_transactions := [];
     _monitored_addresses := ∅; notified := [] |}.

Definition set_monitored_addresses (self : monitor) (s : gset string)
  : monitor :=
  {| _last_version := _last_version self;
     _recent_transactions := _recent_transactions self;
     _monitored_addresses := s; notified := notified self |}.

Definition set_last_version (self : monitor) (v : Z) : monitor :=
  {| _last_version := Some v;
     _recent_transactions := _recent_transactions self;
     _monitored_addresses := _monitored_addresses self;
     notified := notified self |}.

(** [if not address.startswith("0x"): address = f"0x{address}"] *)
Definition with_0x (address : string) : string :=
  if startswith address "0x" then address else "0x" +:+ address.

Definition add_monitored_address (self : monitor) (address : string)
  : monitor :=
  set_monitored_addresses self
    ({[lower (with_0x address)]} ∪ _monitored_addresses self).

Definition remove_monitored_address (self : monitor) (address : string)
  : monitor :=
  set_monitored_addresses self
    (_monitored_addresses self ∖ {[lower (with_0x address)]}).

(** [deque(maxlen=n).append(x)] *)
Definition deque_append {A : Type} (maxlen : nat) (d : list A) (x : A)
  : list A :=
  let d' := d ++ [x] in drop (length d' - maxlen) d'.

Definition _notify_callbacks (self : monitor) (event : TransactionEvent)
  : monitor :=
  {| _last_version := _last_version self;
     _recent_transactions := _recent_transactions self;
     _monitored_addresses := _monitored_addresses self;
     notified := notified self ++ [event] |}.

Definition _should_process (self : monitor) (event : TransactionEvent)
  : result bool :=
  if bool_decide (_monitored_addresses self = ∅) then Ok true
  else
    sender ← (if truthy (sender event) then lower_of (sender event)
              else Ok ""%string);
    Ok (bool_decide (sender ∈ _monitored_addresses self)).

Section Platform.

(** What [datetime.fromtimestamp(z / 1_000_000)] raises for an [int] z,
    if anything.  The range of accepted timestamps and the exception
    for one outside it ([ValueError], [OverflowError] or [OSError])
    depend on the platform. *)
Variable fromtimestamp_error : Z -> option exn.

(** The inner [try] of [_parse_transaction]: [ValueError] and
    [TypeError] fall back to [datetime.now()], any other exception
    leaves it. *)
Definition parse_timestamp (tx_data : dict) : result datetime :=
  let timestamp_str := get tx_data "timestamp" (VStr "0") in
  let attempt :=
    z ← int timestamp_str;
    match fromtimestamp_error z with
    | None => Ok (FromTimestamp z)
    | Some e => Raise e
    end in
  match attempt with
  | Raise ValueError | Raise TypeError => Ok Now
  | r => r
  end.

Definition _parse_transaction (tx_data : dict) : option TransactionEvent :=
  let attempt :=
    timestamp ← parse_timestamp tx_data;
    version ← int (get tx_data "version" (VInt 0));
    gas_used ← int (get tx_data "gas_used" (VInt 0));
    Ok {| hash := get tx_data "hash" (VStr "");
          version := version;
          sender := get tx_data "sender" (VStr "");
          type := get tx_data "type" (VStr "unknown");
          timestamp := timestamp;
          success := get tx_data "success" (VBool false);
          gas_used := gas_used;
          payload := get tx_data "payload" (VDict []);
          changes := get tx_data "changes" (VList []);
          raw := tx_data |} in
  match attempt with
  | Ok event => Some event
  | Raise _ => None
  end.

(** The [for] loop of [_poll_transactions].  An exception that leaves
    the loop body ends the loop; the enclosing [except] swallows it, so
    the result is the monitor as the exception found it. *)
Fixpoint poll_loop (self : monitor) (transactions : list dict) : monitor :=
  match transactions with
  | [] => self
  | tx_data :: rest =>
      match int (get tx_data "version" (VInt 0)) with
      | Raise _ => self
      | Ok tx_version =>
          if default 0 (_last_version self) <? tx_version then
            let self := set_last_version self tx_version in
            match _parse_transaction tx_data with
            | None => poll_loop self rest
            | Some event =>
                match _should_process self event with
                | Raise _ => self
                | Ok false => poll_loop self rest
                | Ok true =>
                    let self :=
                      {| _last_version := _last_version self;
                         _recent_transactions :=
                           deque_append 100 (_recent_transactions self) event;
                         _monitored_addresses := _monitored_addresses self;
                         notified := notified self |} in
                    poll_loop (_notify_callbacks self event) rest
                end
            end
          else poll_loop self rest
      end
  end.

(** One poll iteration, given what [client.get_transactions] returned
    or raised. *)
Definition _poll_transactions (self : monitor)
    (reply : result (list dict)) : monitor :=
  match reply with
  | Ok transactions => poll_loop self transactions
  | Raise _ => self
  end.

(** The start of [_monitor_loop], given what [client.get_ledger_info]
    returned or raised. *)
Definition seed (self : monitor) (reply : result dict) : monitor :=
  let attempt :=
    ledger_info ← reply; int (get ledger_info "ledger_version" (VInt 0)) in
  set_last_version self
    (match attempt with Ok v => v | Raise _ => 0 end).

(** What happens to a running monitor: a poll iteration of the loop, or
    a call of one of the two setters between iterations. *)
Inductive call : Type :=
| Poll (reply : result (list dict))
| AddAddress (address : string)
| RemoveAddress (address : string).

Definition step (self : monitor) (c : call) : monitor :=
  match c with
  | Poll reply => _poll_transactions self reply
  | AddAddress a => add_monitored_address self a
  | RemoveAddress a => remove_monitored_address self a
  end.

(** [_monitor_loop]: the seeding, then the calls in order. *)
Definition _monitor_loop (self : monitor) (ledger_info : result dict)
    (calls : list call) : monitor :=
  foldl step (seed self ledger_info) calls.

(** [get_address_transactions], given the records
    [client.get_account_transactions] returned: the events of the
    records that parse, in order. *)
Definition get_address_transactions (transactions : list dict)
  : list TransactionEvent :=
  omap _parse_transaction transactions.

End Platform.

(** An instance of the platform's behaviour: timestamps of the years 1
    to 9999 (UTC) convert, and one outside is refused with the
    [ValueError] of the year check. *)
Definition year_range_error (z : Z) : option exn :=
  if (-62135596800000000 <=? z) && (z <? 253402300800000000)
  then None else Some ValueError.

End TransactionMonitor.

(** * Vocabulary of the properties *)

Section Vocabulary.
Import PolicyEngine RiskScorer TransactionMonitor.

(** What the blocked-address branch reports for a sender and for a
    receiver. *)
Definition sender_violation (policy : CompliancePolicy) (sender : string)
  : PolicyViolation :=
  violation policy ("Sender " +:+ sender +:+ " is blocked")
    [("blocked_address", VStr sender); ("role", VStr "sender")].

Definition receiver_violation (policy : CompliancePolicy)
    (receiver : option string) : PolicyViolation :=
  violation policy
    ("Receiver " +:+ str_of (opt_str receiver) +:+ " is blocked")
    [("blocked_address", opt_str receiver); ("role", VStr "receiver")].

(** The union of the lower-cased configured address lists of the
    registered blocked-address policies: the content the specification
    gives the cache. *)
Definition configured_addresses (policy : CompliancePolicy) : gset string :=
  match policy_type policy, get (config policy) "addresses" (VList []) with
  | BLOCKED_ADDRESS, VList l =>
      list_to_set
        (omap (fun v => match v with VStr a => Some (lower a) | _ => None end) l)
  | _, _ => ∅
  end.

Definition configured_union (self : engine) : gset string :=
  ⋃ (configured_addresses <$> list_policies self).

(** The severity score of a label, [SEVERITY_SCORES.get(label, 0)]. *)
Definition severity_score (label : string) : Z := get SEVERITY_SCORES label 0.

Definition vuln (label title : string) : Vulnerability.Vulnerability :=
  {| Vulnerability.severity := label; Vulnerability.title := title |}.

(** The weights as the specification gives them, and the weighted
    average of the sub-scores of the categories that are present:
    [Σ(weight_i × subscore_i) / Σ(weight_i)]. *)
Definition spec_weight (category : string) : Q :=
  if String.eqb category "compliance" then (35 # 100)%Q
  else if String.eqb category "vulnerability" then (40 # 100)%Q
  else if String.eqb category "anomaly" then (25 # 100)%Q
  else 0%Q.

Definition weighted_average (present : list (string * Z)) : Q :=
  (foldr (fun '(k, s) acc => spec_weight k * inject_Z s + acc) 0 present
   / foldr (fun '(k, _) acc => spec_weight k + acc) 0 present)%Q.

(** The factor lines of each source, in the source's own order. *)
Definition compliance_factors (cr : option ComplianceResult) : list string :=
  match cr with
  | Some r => (fun v => "Policy violation: " +:+ message v) <$> violations r
  | None => []
  end.

Definition vulnerability_factors
    (vr : option Vulnerability.VulnerabilityReport) : list string :=
  match vr with
  | Some r =>
      (fun v => upper (Vulnerability.severity v) +:+ ": " +:+ Vulnerability.title v)
        <$> Vulnerability.vulnerabilities r
  | None => []
  end.

Definition anomaly_factors (ar : option Anomaly.AnomalyReport) : list string :=
  match ar with
  | Some r =>
      (fun f => upper (Anomaly.severity f) +:+ ": " +:+ Anomaly.title f)
        <$> Anomaly.findings r
  | None => []
  end.

(** The versions handed to the callbacks so far. *)
Definition notified_versions (self : monitor) : list Z :=
  version <$> notified self.

(** The versions handed to the callbacks increase strictly and none
    exceeds the last version seen. *)
Definition ordered (self : monitor) : Prop :=
  StronglySorted Z.lt (notified_versions self)
  /\ Forall (fun v => v <= default 0 (_last_version self))
       (notified_versions self).

(** The same of the events handed to the callbacks since the monitor had
    notified [old]: these are the events of the current run when [old] is
    what earlier runs left. *)
Definition ordered_since (old : list TransactionEvent) (self : monitor)
  : Prop :=
  exists delivered,
    notified self = old ++ delivered
    /\ StronglySorted Z.lt (version <$> delivered)
    /\ Forall (fun v => v <= default 0 (_last_version self))
         (version <$> delivered).

(** Sample inputs: a raw record as the node returns it for a user
    transaction, and an event of a given sender. *)
Definition user_transaction (version sender : string) (more : dict) : dict :=
  [("version", VStr version); ("sender", VStr sender);
   ("type", VStr "user_transaction"); ("success", VBool true)] ++ more.

Definition event_from (s : string) : TransactionEvent :=
  {| hash := VStr "0x1"; version := 1; sender := VStr s;
     type := VStr "user_transaction"; timestamp := Now;
     success := VBool true; gas_used := 0; payload := VDict [];
     changes := VList []; raw := [] |}.

(** The registry of an engine is a [dict]: no key occurs twice, and every
    policy is filed under its own name. *)
Definition registry_ok (self : engine) : Prop :=
  NoDup (_policies self).*1
  /\ Forall (fun kp => name kp.2 = kp.1) (_policies self).

(** The operations of the engine a caller can invoke. *)
Inductive engine_call : Type :=
| AddPolicy (policy : CompliancePolicy)
| RemovePolicy (policy_name : string)
| AddBlocked (address : string)
| RemoveBlocked (address : string)
| Toggle (policy_name : string).

Definition engine_step (self : engine) (c : engine_call) : engine :=
  match c with
  | AddPolicy p => fst (add_policy self p)
  | RemovePolicy n => remove_policy self n
  | AddBlocked a => fst (add_blocked_address self a)
  | RemoveBlocked a => remove_blocked_address self a
  | Toggle n =>
      match ComplianceRoutes.toggle_policy self n with
      | Some (self', _) => self'
      | None => self
      end
  end.

(** The integers of a [dict] of counts, added up. *)
Definition sum_counts (d : dict) : Z :=
  foldr (fun kv acc => match kv.2 with VInt z => z + acc | _ => acc end) 0 d.

(** The rank of a risk level, from safe to critical. *)
Definition level_rank (l : RiskLevel) : Z :=
  match l with
  | SAFE => 0 | RiskScorer.LOW => 1 | RiskScorer.MEDIUM => 2
  | RiskScorer.HIGH => 3 | RiskScorer.CRITICAL => 4
  end.

(** The score the weighted total gives when a single category, with the
    given sub-score, is present. *)
Definition single_category_score (category : string) (sub_score : Z)
  : result Z :=
  totals ← accumulate (0%float, 0%float) category true sub_score;
  final_score ←
    (if PrimFloat.ltb 0%float totals.2
     then int_of_float (PrimFloat.div totals.1 totals.2)
     else Ok 0);
  Ok (Z.max 0 (Z.min 100 final_score)).

(** A normalised address: lower-case and starting with ["0x"]. *)
Definition normalised (a : string) : Prop :=
  lower a = a /\ startswith a "0x" = true.

(** The buffer of recent transactions holds the last 100 notified
    events. *)
Definition buffer_ok (self : monitor) : Prop :=
  _recent_transactions self
  = drop (length (notified self) - 100) (notified self).

(** Every monitored address is normalised. *)
Definition addresses_ok (self : monitor) : Prop :=
  forall a, a ∈ _monitored_addresses self -> normalised a.

End Vocabulary.

(** * Properties *)

(** ** Built-ins *)

Example int_plain : Py.int (VStr "12345") = Ok 12345.
Proof. reflexivity. Qed.

Example int_spaces_sign_underscore : Py.int (VStr " +1_000 ") = Ok 1000.
Proof. reflexivity. Qed.

Example int_negative : Py.int (VStr "-42") = Ok (-42).
Proof. reflexivity. Qed.

Example int_leading_zeros_newline :
  Py.int (VStr (String "009" (String "010" (String "0" (String "0" (String "7"
            (String "010" EmptyString))))))) = Ok 7.
Proof. reflexivity. Qed.

Example int_rejects :
  Py.int <$> [VStr ""; VStr "12a"; VStr "1__0"; VStr "1_"; VStr "_1";
              VStr "+"; VStr "1.5"; VNone; VList []]
  = [Raise ValueError; Raise ValueError; Raise ValueError; Raise ValueError;
     Raise ValueError; Raise ValueError; Raise ValueError; Raise TypeError;
     Raise TypeError].
Proof. reflexivity. Qed.

Example lower_address : lower "0xDEAD" = "0xdead".
Proof. reflexivity. Qed.

Example str_of_int_sample :
  str_of_int 2000000000000 = "2000000000000" /\ str_of_int (-5) = "-5".
Proof. split; vm_compute; reflexivity. Qed.

Example int_of_float_sample :
  int_of_float 42.99%float = Ok 42 /\ int_of_float (-0.5)%float = Ok 0
  /\ int_of_float (-3.75)%float = Ok (-3)
  /\ int_of_float 1e22%float = Ok 10000000000000000000000
  /\ int_of_float infinity = Raise OverflowError
  /\ int_of_float nan = Raise ValueError.
Proof. repeat split; vm_compute; reflexivity. Qed.

Example float_of_int_sample :
  float_of_int 81 = Ok 81%float
  /\ float_of_int (-7) = Ok (-7)%float
  /\ float_of_int (2 ^ 53 + 1) = Ok 9007199254740992%float
  /\ float_of_int (2 ^ 53 + 3) = Ok 9007199254740996%float
  /\ float_of_int (2 ^ 1024) = Raise OverflowError.
Proof. repeat split; vm_compute; reflexivity. Qed.

Example weights_sum :
  RiskScorer.accumulate (0%float, 0%float) "compliance" true 45
  = Ok (15.749999999999998%float, 0.35%float).
Proof. vm_compute. reflexivity. Qed.

Lemma eqb_empty_lower (s : string) :
  (if String.eqb s "" then ""%string else lower s) = lower s.
Proof. destruct s; reflexivity. Qed.

(** A bind that returned did so through both of its parts. *)
Lemma bind_Ok {A B : Type} (m : result A) (k : A -> result B) (b : B) :
  (m ≫= k) = Ok b -> exists a, m = Ok a /\ k a = Ok b.
Proof. destruct m as [a|e]; cbn; [eauto | discriminate]. Qed.

(** ** Policy engine *)

Section PolicyEngineProperties.
Import PolicyEngine.

Lemma init_eq :
  __init__ =
  {| _policies := (fun p => (name p, p)) <$> default_policies;
     _blocked_addresses := ∅ |}.
Proof. reflexivity. Qed.

Lemma sender_lower_eq (sender : string) : sender_lower sender = lower sender.
Proof. apply eqb_empty_lower. Qed.

Lemma receiver_lower_eq (receiver : option string) :
  receiver_lower receiver = lower (default ""%string receiver).
Proof. destruct receiver; [apply eqb_empty_lower | reflexivity]. Qed.

(** C4.  On a freshly constructed engine, [check_transaction] with value
    2_000_000_000_000 and the other arguments at their defaults (any
    sender) returns exactly one violation, of severity high, raised by the
    default value ceiling, and [passed] is false.  In general a
    transaction-value policy configured with the integer [max_value]
    reports a violation, with the policy's name and severity, when
    [value > max_value], and reports nothing otherwise. *)
Theorem check_transaction_value_ceiling :
  (forall sender : string,
      exists v,
        check_transaction __init__ sender None 2000000000000 0 None
        = Ok {| passed := false; violations := [v]; policies_checked := 4 |}
        /\ violation_severity v = HIGH
        /\ violation_type v = TRANSACTION_VALUE
        /\ policy_name v = "max_transaction_value"%string)
  /\ (forall self policy sender receiver value gas_used payload max_value,
         policy_type policy = TRANSACTION_VALUE ->
         dict_lookup "max_value" (config policy) = Some (VInt max_value) ->
         (max_value < value ->
          exists v,
            _check_policy self policy sender receiver value gas_used payload
            = Ok (Some v)
            /\ policy_name v = name policy
            /\ violation_severity v = severity policy)
         /\ (value <= max_value ->
             _check_policy self policy sender receiver value gas_used payload
             = Ok None)).
Proof.
  split.
  - intros sender. rewrite init_eq.
    unfold check_transaction, default_policies; cbn.
    rewrite !bool_decide_eq_false_2 by set_solver.
    cbn. eexists. split; [reflexivity | repeat split].
  - intros self policy sender receiver value gas_used payload max_value Ht Hc.
    unfold _check_policy. rewrite Ht, Hc. cbn.
    split; intros H.
    + apply Z.ltb_lt in H. rewrite H. eexists.
      split; [reflexivity | split; reflexivity].
    + apply Z.ltb_ge in H. rewrite H. reflexivity.
Qed.

Lemma check_transaction_value_ceiling_witness :
  let policy := {| name := "cap"; policy_type := TRANSACTION_VALUE;
                   severity := LOW; description := ""; enabled := true;
                   config := [("max_value", VInt 10)] |} in
  _check_policy __init__ policy "0x1" None 10 0 None = Ok None.
Proof.
  intros policy.
  apply (proj2 check_transaction_value_ceiling
           __init__ policy "0x1"%string None 10 0 None 10);
    [reflexivity | reflexivity | lia].
Defined.

(** C5.  A blocked-address policy reports a violation exactly when the
    lower-cased sender or the lower-cased receiver (the empty string for
    an absent receiver) is in the blocked cache.  The sender is looked at
    first: a blocked sender gives the sender violation whatever the
    receiver is, and the receiver violation is reported only for a
    sender that is not blocked.  Matching ignores case:
    [add_blocked_address] puts the lower-cased address into the cache,
    and after [add_blocked_address("0xDEAD")] on a fresh engine a check of
    sender ["0xdead"] returns one violation, of severity critical. *)
Theorem check_policy_blocked_address
    (self : engine) (policy : CompliancePolicy) (sender : string)
    (receiver : option string) (value gas_used : Z) (payload : option dict)
    (Htype : policy_type policy = BLOCKED_ADDRESS) :
  let s := lower sender in
  let r := lower (default ""%string receiver) in
  let outcome :=
    _check_policy self policy sender receiver value gas_used payload in
  ((exists v, outcome = Ok (Some v))
     <-> s ∈ _blocked_addresses self \/ r ∈ _blocked_addresses self)
  /\ (s ∈ _blocked_addresses self ->
      outcome = Ok (Some (sender_violation policy sender)))
  /\ (s ∉ _blocked_addresses self -> r ∈ _blocked_addresses self ->
      outcome = Ok (Some (receiver_violation policy receiver)))
  /\ (s ∉ _blocked_addresses self -> r ∉ _blocked_addresses self ->
      outcome = Ok None)
  /\ (forall (self0 : engine) (address : string),
        lower address
          ∈ _blocked_addresses (fst (add_blocked_address self0 address)))
  /\ (let self' := fst (add_blocked_address __init__ "0xDEAD") in
      exists v,
        check_transaction self' "0xdead" None 0 0 None
        = Ok {| passed := false; violations := [v]; policies_checked := 4 |}
        /\ v = sender_violation
                 {| name := "blocked_addresses";
                    policy_type := BLOCKED_ADDRESS;
                    severity := CRITICAL;
                    description :=
                      "Block transactions involving sanctioned addresses";
                    enabled := true;
                    config := [("addresses", VList [VStr "0xDEAD"])] |}
                 "0xdead"
        /\ violation_severity v = CRITICAL).
Proof.
  intros s r outcome.
  assert (Hs : s ∈ _blocked_addresses self ->
               outcome = Ok (Some (sender_violation policy sender))).
  { intros H. subst outcome. unfold _check_policy. rewrite Htype.
    rewrite sender_lower_eq, bool_decide_eq_true_2 by exact H.
    reflexivity. }
  assert (Hr : s ∉ _blocked_addresses self -> r ∈ _blocked_addresses self ->
               outcome = Ok (Some (receiver_violation policy receiver))).
  { intros H1 H2. subst outcome. unfold _check_policy. rewrite Htype.
    rewrite sender_lower_eq, receiver_lower_eq.
    rewrite bool_decide_eq_false_2 by exact H1.
    rewrite bool_decide_eq_true_2 by exact H2. reflexivity. }
  assert (Hn : s ∉ _blocked_addresses self -> r ∉ _blocked_addresses self ->
               outcome = Ok None).
  { intros H1 H2. subst outcome. unfold _check_policy. rewrite Htype.
    rewrite sender_lower_eq, receiver_lower_eq.
    rewrite !bool_decide_eq_false_2 by assumption. reflexivity. }
  split; [| split; [exact Hs | split; [exact Hr | split; [exact Hn | split]]]].
  - split.
    + intros [v Hv].
      destruct (decide (s ∈ _blocked_addresses self)) as [|H1]; [by left|].
      destruct (decide (r ∈ _blocked_addresses self)) as [|H2]; [by right|].
      rewrite (Hn H1 H2) in Hv. discriminate.
    + intros [H|H].
      * eexists. exact (Hs H).
      * destruct (decide (s ∈ _blocked_addresses self)) as [H1|H1].
        -- eexists. exact (Hs H1).
        -- eexists. exact (Hr H1 H).
  - intros self0 address. unfold add_blocked_address.
    destruct (dict_lookup "blocked_addresses" (_policies self0)) as [p|];
      [| cbn; set_solver].
    destruct (str_in address (get (config p) "addresses" (VList [])))
      as [[|]|]; [cbn; set_solver | | cbn; set_solver].
    destruct (get (config p) "addresses" (VList [])); cbn; set_solver.
  - cbn. eexists. split; [vm_compute; reflexivity | split; reflexivity].
Qed.

Lemma check_policy_blocked_address_witness :
  let policy := {| name := "blocked_addresses";
                   policy_type := BLOCKED_ADDRESS;
                   severity := CRITICAL; description := ""; enabled := true;
                   config := [("addresses", VList [])] |} in
  let self := fst (add_blocked_address __init__ "0xDEAD") in
  _check_policy self policy "0xBEEF" (Some "0xDead"%string) 0 0 None
  = Ok (Some (receiver_violation policy (Some "0xDead"%string))).
Proof.
  intros policy self.
  apply (check_policy_blocked_address self policy "0xBEEF"%string
           (Some "0xDead"%string) 0 0 None eq_refl).
  - vm_compute. set_solver.
  - vm_compute. set_solver.
Defined.

(** C2.  The cache drifts from the configured lists: on a fresh engine,
    [add_blocked_address("0xdead")] followed by
    [remove_blocked_address("0xdead")] leaves the address in the
    configured list of the [blocked_addresses] policy while the cache is
    empty; and registering a blocked-address policy and removing it again
    leaves its address in the cache although no registered policy lists
    it. *)
Theorem blocked_cache_drifts :
  (let self1 := fst (add_blocked_address __init__ "0xdead") in
   let self2 := remove_blocked_address self1 "0xdead" in
   _blocked_addresses self2 = ∅
   /\ configured_union self2 = {["0xdead"%string]})
  /\ (let policy := {| name := "sanctions"; policy_type := BLOCKED_ADDRESS;
                       severity := CRITICAL; description := "";
                       enabled := true;
                       config := [("addresses", VList [VStr "0xBAD"])] |} in
      let self1 := fst (add_policy __init__ policy) in
      let self2 := remove_policy self1 "sanctions" in
      _blocked_addresses self2 = {["0xbad"%string]}
      /\ configured_union self2 = ∅).
Proof.
  split; split; vm_compute; reflexivity.
Qed.

End PolicyEngineProperties.

(** ** Risk scorer *)

Section RiskScorerProperties.
Import RiskScorer.

#[local] Arguments _score_compliance : simpl never.
#[local] Arguments _score_vulnerabilities : simpl never.
#[local] Arguments _score_anomalies : simpl never.

Lemma severity_score_nonneg (label : string) : 0 <= severity_score label.
Proof.
  unfold severity_score, get, SEVERITY_SCORES; cbn.
  repeat match goal with
         | |- context [String.eqb ?a ?b] => destruct (String.eqb a b)
         end; cbn; lia.
Qed.

(** The running maximum of a loop [m = max(m, f(x))] is an upper bound of
    the start value and of every [f x], and it is one of them. *)
Lemma foldl_max_bound {A : Type} (f : A -> Z) (l : list A) (a : Z) :
  a <= foldl (fun m x => Z.max m (f x)) a l
  /\ forall x, x ∈ l -> f x <= foldl (fun m x => Z.max m (f x)) a l.
Proof.
  revert a. induction l as [|y l IH]; intros a; cbn.
  - split; [lia | intros x Hx; inversion Hx].
  - destruct (IH (Z.max a (f y))) as [H1 H2]. split; [lia |].
    intros x Hx. apply elem_of_cons in Hx as [->|Hx]; [lia | auto].
Qed.

Lemma foldl_max_attained {A : Type} (f : A -> Z) (l : list A) (a : Z) :
  foldl (fun m x => Z.max m (f x)) a l = a
  \/ exists x, x ∈ l /\ foldl (fun m x => Z.max m (f x)) a l = f x.
Proof.
  revert a. induction l as [|y l IH]; intros a; cbn; [by left |].
  destruct (IH (Z.max a (f y))) as [H | (x & Hx & H)].
  - rewrite H. destruct (Z.max_spec a (f y)) as [[_ ->] | [_ ->]].
    + right. exists y. split; [left | reflexivity].
    + by left.
  - right. exists x. split; [by right | exact H].
Qed.

(** For a non-empty list and scores that are not negative, the loop
    started at 0 ends with the score of a worst element. *)
Lemma foldl_max_worst {A : Type} (f : A -> Z) (y : A) (l : list A) :
  (forall x, 0 <= f x) ->
  exists worst,
    worst ∈ y :: l
    /\ (forall x, x ∈ y :: l -> f x <= f worst)
    /\ foldl (fun m x => Z.max m (f x)) 0 (y :: l) = f worst.
Proof.
  intros Hpos.
  destruct (foldl_max_bound f (y :: l) 0) as [_ Hub].
  destruct (foldl_max_attained f (y :: l) 0) as [H0 | (x & Hx & H)].
  - exists y. split; [left |]. split.
    + intros x Hx. specialize (Hub x Hx). specialize (Hpos y). lia.
    + specialize (Hub y ltac:(left)). specialize (Hpos y). lia.
  - exists x. split; [exact Hx |]. split; [| exact H].
    intros x' Hx'. rewrite <- H. auto.
Qed.

(** Takes a call [calculate_risk_score cr vr ar = Ok rs] apart: the cases
    of the three inputs, the steps that returned, and the fields of
    [rs]. *)
Ltac returned H cr vr ar :=
  unfold calculate_risk_score in H;
  destruct cr as [cr|];
    [destruct (PolicyEngine.violations cr) as [|? ?] eqn:? |];
  (destruct vr as [vr|];
     [destruct (Vulnerability.vulnerabilities vr) as [|? ?] eqn:? |]);
  (destruct ar as [ar|];
     [destruct (_score_anomalies ar) as [?|?] eqn:?; [| discriminate H] |]);
  cbn in H;
  repeat (apply bind_Ok in H as (? & ? & H));
  try match type of H with
      | (let '(_, _) := ?totals in _) = _ => destruct totals
      end;
  try apply bind_Ok in H as (? & ? & H);
  inversion H; subst; clear H; cbn.

(** Without inputs the score is 0, the level safe, and the breakdown,
    the factors and the recommendations are empty. *)
Lemma calculate_risk_score_no_input :
  calculate_risk_score None None None
  = Ok {| score := 0; level := SAFE; breakdown := []; factors := [];
          recommendations := [] |}.
Proof. vm_compute. reflexivity. Qed.

(** The returned score is clamped to 0..100. *)
Lemma calculate_risk_score_range cr vr ar rs :
  calculate_risk_score cr vr ar = Ok rs -> 0 <= score rs <= 100.
Proof. intros H. returned H cr vr ar; lia. Qed.

(** C6.  The vulnerability sub-score is 0 for a report without
    vulnerabilities; otherwise it is
    [min(100, s + min(15*critical + 10*high + 5*medium + 2*low, 30))],
    where [s] is the greatest severity score among the listed
    vulnerabilities.  With only a vulnerability report of one critical
    and two low vulnerabilities (in any order, whatever their titles),
    [calculate_risk_score] returns the breakdown vulnerability = 100, the
    score 100 and the level critical. *)
Theorem score_vulnerabilities_spec :
  (forall report : Vulnerability.VulnerabilityReport,
      let vs := Vulnerability.vulnerabilities report in
      let count_bonus :=
        15 * Vulnerability.critical_count report +
        10 * Vulnerability.high_count report +
        5 * Vulnerability.medium_count report +
        2 * Vulnerability.low_count report in
      match vs with
      | [] => _score_vulnerabilities report = 0
      | _ =>
          exists worst,
            worst ∈ vs
            /\ (forall v, v ∈ vs ->
                  severity_score (Vulnerability.severity v)
                  <= severity_score (Vulnerability.severity worst))
            /\ _score_vulnerabilities report
               = Z.min 100 (severity_score (Vulnerability.severity worst)
                            + Z.min count_bonus 30)
      end)
  /\ (forall (t1 t2 t3 : string) (vs : list Vulnerability.Vulnerability),
         vs ∈ [ [vuln "critical" t1; vuln "low" t2; vuln "low" t3];
                [vuln "low" t1; vuln "critical" t2; vuln "low" t3];
                [vuln "low" t1; vuln "low" t2; vuln "critical" t3] ] ->
         exists rs,
           calculate_risk_score None (Some (Vulnerability.report vs)) None
           = Ok rs
           /\ _score_vulnerabilities (Vulnerability.report vs) = 100
           /\ breakdown rs = [("vulnerability"%string, 100)]
           /\ score rs = 100
           /\ level rs = CRITICAL).
Proof.
  split.
  - intros report vs count_bonus. subst vs.
    unfold _score_vulnerabilities.
    destruct (Vulnerability.vulnerabilities report) as [|y l]; [reflexivity|].
    destruct (foldl_max_worst
                (fun v => severity_score (Vulnerability.severity v)) y l)
      as (worst & Hin & Hub & Hmax).
    { intros x. apply severity_score_nonneg. }
    exists worst. split; [exact Hin|]. split; [exact Hub|].
    unfold severity_score in Hmax |- *. rewrite Hmax.
    subst count_bonus. f_equal. f_equal. f_equal. lia.
  - intros t1 t2 t3 vs Hvs.
    repeat (apply elem_of_cons in Hvs as [->|Hvs]);
      [| | | inversion Hvs];
      (eexists; split; [vm_compute; reflexivity | repeat split]).
Qed.

Lemma score_vulnerabilities_spec_witness :
  exists rs,
    calculate_risk_score None
      (Some (Vulnerability.report
               [vuln "low" "Unused import"; vuln "critical" "Missing signer";
                vuln "low" "Magic number"])) None = Ok rs
    /\ score rs = 100 /\ level rs = CRITICAL.
Proof.
  destruct (proj2 score_vulnerabilities_spec
              "Unused import"%string "Missing signer"%string
              "Magic number"%string
              [vuln "low" "Unused import"; vuln "critical" "Missing signer";
               vuln "low" "Magic number"])
    as (rs & H & _ & _ & Hs & Hl).
  - right; left.
  - exists rs. split; [exact H | split; [exact Hs | exact Hl]].
Defined.

(** C1.  A report of one high and three low vulnerabilities, and nothing
    else, has the vulnerability sub-score 65 + (10 + 3*2) = 81, so the
    weighted average over the present categories is exactly 81; the
    returned score is 80, because [81 * 0.4 / 0.4] evaluates to a float
    just below 81 and [int] truncates it. *)
Theorem weighted_score_truncates_below :
  let report :=
    Vulnerability.report
      [vuln "high" "Unchecked transfer"; vuln "low" "Unused value";
       vuln "low" "Magic number"; vuln "low" "Missing doc"] in
  exists rs,
    calculate_risk_score None (Some report) None = Ok rs
    /\ breakdown rs = [("vulnerability"%string, 81)]
    /\ (weighted_average (breakdown rs) == 81)%Q
    /\ score rs = 80.
Proof.
  eexists. split; [vm_compute; reflexivity |].
  split; [reflexivity |]. split; reflexivity.
Qed.

(** C7 (as the code has it).  The factors of a returned score are the
    first 10 entries of: one line ["Policy violation: <message>"] per
    compliance violation, then one line ["<SEVERITY>: <title>"] per
    vulnerability, then one line ["<SEVERITY>: <title>"] per anomaly
    finding, each source in its own order.  Equal lines are kept. *)
Theorem factors_spec cr vr ar rs :
  calculate_risk_score cr vr ar = Ok rs ->
  factors rs
  = take 10 (compliance_factors cr ++ vulnerability_factors vr
             ++ anomaly_factors ar).
Proof.
  intros H. returned H cr vr ar; f_equal;
    repeat match goal with
           | E : _ = [] |- _ => rewrite E
           | E : _ = _ :: _ |- _ => rewrite E
           end;
    cbn; rewrite ?app_nil_r, <- ?app_assoc; reflexivity.
Qed.

Lemma factors_spec_witness :
  exists rs,
    calculate_risk_score None
      (Some (Vulnerability.report [vuln "medium" "Unchecked return"])) None
    = Ok rs
    /\ factors rs = ["MEDIUM: Unchecked return"%string].
Proof.
  eexists. split; [vm_compute; reflexivity |].
  apply (factors_spec None
           (Some (Vulnerability.report [vuln "medium" "Unchecked return"]))
           None).
  vm_compute. reflexivity.
Defined.

(** C7, as stated, fails: two vulnerabilities with the same severity and
    title give the same factor twice, and the factor of a compliance
    violation is not of the form ["<SEVERITY>: <message>"]. *)
Lemma factors_keep_duplicates :
  (let v := vuln "high" "Reentrancy" in
   exists rs,
     calculate_risk_score None (Some (Vulnerability.report [v; v])) None
     = Ok rs
     /\ factors rs = ["HIGH: Reentrancy"; "HIGH: Reentrancy"]%string
     /\ ~ NoDup (factors rs))
  /\ (let v :=
        {| PolicyEngine.policy_name := "high_gas_warning";
           PolicyEngine.violation_type := PolicyEngine.GAS_LIMIT;
           PolicyEngine.violation_severity := PolicyEngine.MEDIUM;
           PolicyEngine.message := "Gas usage 200000 exceeds threshold 100000";
           PolicyEngine.details :=
             [("gas_used", VInt 200000); ("max_gas", VInt 100000)] |} in
      let cr :=
        {| PolicyEngine.passed := false; PolicyEngine.violations := [v];
           PolicyEngine.policies_checked := 4 |} in
      exists rs,
        calculate_risk_score (Some cr) None None = Ok rs
        /\ factors rs
           = ["Policy violation: Gas usage 200000 exceeds threshold 100000"%string]
        /\ factors rs
           <> ["MEDIUM: Gas usage 200000 exceeds threshold 100000"%string]).
Proof.
  split.
  - eexists. split; [vm_compute; reflexivity |]. split; [reflexivity |].
    cbn. intros Hnd. apply NoDup_cons in Hnd as [Hnotin _].
    apply Hnotin. left.
  - eexists. split; [vm_compute; reflexivity |]. split; [reflexivity |].
    cbn. discriminate.
Qed.

(** C10.  The breakdown of a returned score has the key [compliance]
    exactly when a compliance result was given, [vulnerability] exactly
    when a vulnerability report was given, [anomaly] exactly when an
    anomaly report was given, each bound to the sub-score of its input,
    and it has no other key.  A compliance result without violations is
    entered as compliance = 0. *)
Theorem breakdown_spec cr vr ar rs :
  calculate_risk_score cr vr ar = Ok rs ->
  dict_lookup "compliance" (breakdown rs) = _score_compliance <$> cr
  /\ dict_lookup "vulnerability" (breakdown rs) = _score_vulnerabilities <$> vr
  /\ match ar with
     | Some r =>
         exists a, _score_anomalies r = Ok a
                   /\ dict_lookup "anomaly" (breakdown rs) = Some a
     | None => dict_lookup "anomaly" (breakdown rs) = None
     end
  /\ (forall k, is_Some (dict_lookup k (breakdown rs)) ->
        k ∈ ["compliance"; "vulnerability"; "anomaly"]%string)
  /\ (forall r, cr = Some r -> PolicyEngine.violations r = [] ->
        dict_lookup "compliance" (breakdown rs) = Some 0).
Proof.
  intros H. returned H cr vr ar;
    (split; [reflexivity |]); (split; [reflexivity |]);
    (split;
     [first [eexists; split; reflexivity | reflexivity] |]);
    (split;
     [ intros k [z Hz]; cbn in Hz;
       repeat match type of Hz with
              | context [String.eqb k ?s] =>
                  destruct (String.eqb_spec k s) as [->|_]; [set_solver |]
              end;
       discriminate
     | intros r Hr Hv; try discriminate;
       injection Hr as ->; unfold _score_compliance; rewrite Hv; reflexivity ]).
Qed.

Lemma breakdown_spec_witness :
  let cr := {| PolicyEngine.passed := true; PolicyEngine.violations := [];
               PolicyEngine.policies_checked := 4 |} in
  exists rs,
    calculate_risk_score (Some cr) None None = Ok rs
    /\ dict_lookup "compliance" (breakdown rs) = Some 0
    /\ dict_lookup "vulnerability" (breakdown rs) = None
    /\ dict_lookup "anomaly" (breakdown rs) = None.
Proof.
  intros cr.
  assert (H : calculate_risk_score (Some cr) None None
              = Ok {| score := 0; level := SAFE;
                      breakdown := [("compliance"%string, 0)];
                      factors := []; recommendations := [] |})
    by (vm_compute; reflexivity).
  eexists. split; [exact H |].
  destruct (breakdown_spec _ _ _ _ H) as (Hc & Hv & Ha & _ & _).
  split; [exact Hc | split; [exact Hv | exact Ha]].
Defined.

End RiskScorerProperties.
(** ** Transaction monitor *)

Section TransactionMonitorProperties.
Import TransactionMonitor.

Variable fromtimestamp_error : Z -> option exn.

Abbreviation _parse_transaction :=
  (TransactionMonitor._parse_transaction fromtimestamp_error).
Abbreviation poll_loop := (TransactionMonitor.poll_loop fromtimestamp_error).
Abbreviation _poll_transactions :=
  (TransactionMonitor._poll_transactions fromtimestamp_error).
Abbreviation step := (TransactionMonitor.step fromtimestamp_error).

(** A parsed event carries the version the poll loop compared. *)
Lemma parse_transaction_version tx_data event :
  _parse_transaction tx_data = Some event ->
  int (get tx_data "version" (VInt 0)) = Ok (version event).
Proof.
  unfold TransactionMonitor._parse_transaction. intros H.
  destruct (parse_timestamp fromtimestamp_error tx_data) as [ts|]; cbn in H;
    [| discriminate].
  destruct (int (get tx_data "version" (VInt 0))) as [v|]; cbn in H;
    [| discriminate].
  destruct (int (get tx_data "gas_used" (VInt 0))) as [g|]; cbn in H;
    [| discriminate].
  injection H as <-. reflexivity.
Qed.

Lemma ordered_notify self event :
  ordered self ->
  default 0 (_last_version self) < version event ->
  forall recent,
    ordered
      (_notify_callbacks
         {| _last_version := Some (version event);
            _recent_transactions := recent;
            _monitored_addresses := _monitored_addresses self;
            notified := notified self |} event).
Proof.
  intros [Hs Hb] Hlt recent.
  unfold ordered, notified_versions in *; cbn.
  rewrite fmap_app; cbn. split.
  - apply StronglySorted_app. split; [| split; [exact Hs | repeat constructor]].
    intros x1 x2 H1 H2. apply list_elem_of_singleton in H2 as ->.
    rewrite Forall_forall in Hb. specialize (Hb x1 H1). lia.
  - apply Forall_app. split; [| repeat constructor; lia].
    eapply Forall_impl; [exact Hb |]. cbn. intros; lia.
Qed.

Lemma ordered_set_last_version self v :
  ordered self -> default 0 (_last_version self) < v ->
  ordered (set_last_version self v).
Proof.
  intros [Hs Hb] Hlt. split; [exact Hs |]. cbn.
  eapply Forall_impl; [exact Hb |]. cbn. intros; lia.
Qed.

Lemma ordered_poll_loop transactions :
  forall self, ordered self -> ordered (poll_loop self transactions).
Proof.
  induction transactions as [|tx_data rest IH]; intros self Hord; cbn;
    [exact Hord |].
  destruct (int (get tx_data "version" (VInt 0))) as [tx_version|] eqn:Hv;
    [| exact Hord].
  destruct (Z.ltb_spec (default 0 (_last_version self)) tx_version) as [Hlt|_];
    [| apply IH, Hord].
  pose proof (ordered_set_last_version self tx_version Hord Hlt) as Hord'.
  destruct (_parse_transaction tx_data) as [event|] eqn:Hp; [| apply IH, Hord'].
  apply parse_transaction_version in Hp. rewrite Hv in Hp.
  injection Hp as ->.
  destruct (_should_process _ event) as [[|]|]; [| apply IH, Hord' | exact Hord'].
  apply IH. apply (ordered_notify self event Hord Hlt).
Qed.

Lemma ordered_step self c : ordered self -> ordered (step self c).
Proof.
  destruct c as [[transactions|e]|a|a]; cbn; intros H;
    [apply ordered_poll_loop, H | exact H | exact H | exact H].
Qed.

Lemma ordered_foldl_step calls :
  forall self, ordered self -> ordered (foldl step self calls).
Proof.
  induction calls as [|c calls IH]; intros self H; cbn; [exact H |].
  apply IH, ordered_step, H.
Qed.

Lemma StronglySorted_lt_NoDup (l : list Z) : StronglySorted Z.lt l -> NoDup l.
Proof.
  induction 1 as [|x l _ IH Hx]; constructor; [| exact IH].
  intros Hin. rewrite Forall_forall in Hx. specialize (Hx x Hin). lia.
Qed.

Lemma ordered_since_notify old self event :
  ordered_since old self ->
  default 0 (_last_version self) < version event ->
  forall recent,
    ordered_since old
      (_notify_callbacks
         {| _last_version := Some (version event);
            _recent_transactions := recent;
            _monitored_addresses := _monitored_addresses self;
            notified := notified self |} event).
Proof.
  intros (delivered & Hn & Hs & Hb) Hlt recent.
  exists (delivered ++ [event]). cbn. rewrite Hn, <- app_assoc, fmap_app.
  split; [reflexivity | split].
  - apply StronglySorted_app. split; [| split; [exact Hs | repeat constructor]].
    intros x1 x2 H1 H2. apply list_elem_of_singleton in H2 as ->.
    rewrite Forall_forall in Hb. specialize (Hb x1 H1). lia.
  - apply Forall_app. split; [| repeat constructor; lia].
    eapply Forall_impl; [exact Hb |]. cbn. intros; lia.
Qed.

Lemma ordered_since_set_last_version old self v :
  ordered_since old self -> default 0 (_last_version self) < v ->
  ordered_since old (set_last_version self v).
Proof.
  intros (delivered & Hn & Hs & Hb) Hlt. exists delivered.
  split; [exact Hn | split; [exact Hs |]]. cbn.
  eapply Forall_impl; [exact Hb |]. cbn. intros; lia.
Qed.

Lemma ordered_since_poll_loop old transactions :
  forall self,
    ordered_since old self -> ordered_since old (poll_loop self transactions).
Proof.
  induction transactions as [|tx_data rest IH]; intros self Hord; cbn;
    [exact Hord |].
  destruct (int (get tx_data "version" (VInt 0))) as [tx_version|] eqn:Hv;
    [| exact Hord].
  destruct (Z.ltb_spec (default 0 (_last_version self)) tx_version) as [Hlt|_];
    [| apply IH, Hord].
  pose proof (ordered_since_set_last_version old self tx_version Hord Hlt)
    as Hord'.
  destruct (_parse_transaction tx_data) as [event|] eqn:Hp; [| apply IH, Hord'].
  apply parse_transaction_version in Hp. rewrite Hv in Hp.
  injection Hp as ->.
  destruct (_should_process _ event) as [[|]|]; [| apply IH, Hord' | exact Hord'].
  apply IH. apply (ordered_since_notify old self event Hord Hlt).
Qed.

Lemma ordered_since_foldl_step old calls :
  forall self,
    ordered_since old self -> ordered_since old (foldl step self calls).
Proof.
  induction calls as [|c calls IH]; intros self H; cbn; [exact H |].
  apply IH. destruct c as [[transactions|e]|a|a]; cbn;
    [apply ordered_since_poll_loop, H | exact H | | ];
    destruct H as (delivered & Hn & Hs & Hb); exists delivered; auto.
Qed.

(** C3.  Take a monitor in any state, also one that has run before.
    After [_monitor_loop] has seeded the last-seen version from any ledger
    reply and has run any sequence of poll iterations, over any replies of
    the RPC client, with any calls of [add_monitored_address] and
    [remove_monitored_address] between them, the versions of the events
    handed to the callbacks during this run are strictly increasing, and
    so none occurs twice among them. *)
Theorem notified_versions_increasing
    (self : monitor) (ledger_info : result dict) (calls : list call) :
  let self' :=
    _monitor_loop fromtimestamp_error self ledger_info calls in
  exists delivered,
    notified self' = notified self ++ delivered
    /\ StronglySorted Z.lt (version <$> delivered)
    /\ NoDup (version <$> delivered).
Proof.
  intros self'.
  assert (Hord : ordered_since (notified self) self').
  { apply ordered_since_foldl_step. exists []. cbn. rewrite app_nil_r.
    split; [reflexivity | split; constructor]. }
  destruct Hord as (delivered & Hn & Hs & _). exists delivered.
  split; [exact Hn | split; [exact Hs | apply StronglySorted_lt_NoDup, Hs]].
Qed.

(** A record whose [gas_used] does not coerce is not parsed. *)
Lemma parse_transaction_gas_used_raises tx_data e :
  int (get tx_data "gas_used" (VInt 0)) = Raise e ->
  _parse_transaction tx_data = None.
Proof.
  intros H. unfold TransactionMonitor._parse_transaction. rewrite H.
  destruct (parse_timestamp fromtimestamp_error tx_data); cbn;
    [destruct (int (get tx_data "version" (VInt 0))) |]; reflexivity.
Qed.

(** When the version of a record does not coerce, the exception leaves the
    loop: the records after it are not looked at in this iteration. *)
Lemma poll_loop_version_raises self tx_data rest e :
  int (get tx_data "version" (VInt 0)) = Raise e ->
  poll_loop self (tx_data :: rest) = self.
Proof. intros H. cbn. rewrite H. reflexivity. Qed.

(** C8 (as the code has it).  In a poll iteration, a record with a new
    version whose [gas_used] raises on coercion yields no event: the loop
    records its version and goes on with the remaining records, so the
    buffer and the callbacks get exactly what the remaining records
    give. *)
Theorem unparsable_record_skipped
    (self : monitor) (tx_data : dict) (rest : list dict) (tx_version : Z)
    (e : exn) :
  int (get tx_data "version" (VInt 0)) = Ok tx_version ->
  default 0 (_last_version self) < tx_version ->
  int (get tx_data "gas_used" (VInt 0)) = Raise e ->
  _parse_transaction tx_data = None
  /\ poll_loop self (tx_data :: rest)
     = poll_loop (set_last_version self tx_version) rest
  /\ notified (poll_loop self [tx_data]) = notified self
  /\ _recent_transactions (poll_loop self [tx_data])
     = _recent_transactions self.
Proof.
  intros Hv Hlt Hg.
  pose proof (parse_transaction_gas_used_raises tx_data e Hg) as Hp.
  apply Z.ltb_lt in Hlt.
  split; [exact Hp |]. cbn. rewrite Hv, Hlt, Hp. repeat split.
Qed.

(** [_should_process] on an event whose sender is a string. *)
Lemma should_process_str self event s :
  sender event = VStr s ->
  _should_process self event
  = Ok (bool_decide (_monitored_addresses self = ∅
                     \/ lower s ∈ _monitored_addresses self)).
Proof.
  intros Hs. unfold _should_process. rewrite Hs. cbn.
  destruct (decide (_monitored_addresses self = ∅)) as [He|He].
  - rewrite !bool_decide_eq_true_2; auto.
  - rewrite (bool_decide_eq_false_2 _ He).
    rewrite <- (eqb_empty_lower s). destruct (String.eqb s ""); cbn;
      f_equal; apply bool_decide_ext; tauto.
Qed.

End TransactionMonitorProperties.

Section TransactionMonitorExamples.
Import TransactionMonitor.

(** A record whose [gas_used] has no digits, followed by a good one. *)
Lemma unparsable_record_skipped_witness :
  let bad := user_transaction "11" "0xab"
               [("hash", VStr "0xb"); ("gas_used", VStr "n/a")] in
  let good := user_transaction "12" "0xab"
                [("hash", VStr "0xc"); ("gas_used", VStr "7")] in
  let self := seed __init__ (Ok [("ledger_version", VStr "10")]) in
  poll_loop year_range_error self (bad :: [good])
  = poll_loop year_range_error (set_last_version self 11) [good].
Proof.
  intros bad good self.
  apply (unparsable_record_skipped year_range_error self bad [good] 11
           ValueError);
    [reflexivity | vm_compute; reflexivity | reflexivity].
Defined.

(** C8, as stated, fails for a record without a hash and for a record
    whose timestamp does not coerce: each yields an event (with the hash
    [""], with the current time) that is buffered and handed to the
    callbacks. *)
Lemma record_without_hash_delivered :
  let self := seed __init__ (Ok [("ledger_version", VStr "10")]) in
  (let tx_data := user_transaction "11" "0xab"
                    [("timestamp", VStr "1700000000000000");
                     ("gas_used", VStr "7")] in
   exists event,
     notified (_poll_transactions year_range_error self (Ok [tx_data]))
     = [event]
     /\ hash event = VStr "" /\ version event = 11)
  /\ (let tx_data := user_transaction "11" "0xab"
                       [("hash", VStr "0xb"); ("timestamp", VStr "soon");
                        ("gas_used", VStr "7")] in
      exists event,
        notified (_poll_transactions year_range_error self (Ok [tx_data]))
        = [event]
        /\ timestamp event = Now /\ version event = 11).
Proof.
  intros self.
  split; intros tx_data;
    (eexists; split; [vm_compute; reflexivity | split; reflexivity]).
Qed.

(** C9.  An event whose sender is a string is accepted exactly when the
    set of monitored addresses is empty or contains the lower-cased
    sender.  [add_monitored_address] stores the address lower-cased, with
    ["0x"] put in front when the address does not start with it.  With
    ["0xAB"] as the only monitored address, events from ["0xab"] and
    ["0xAB"] are accepted and events from ["0xAB1"] and ["0xCD"] are not. *)
Theorem should_process_spec :
  (forall self event s,
      sender event = VStr s ->
      (_should_process self event = Ok true
       <-> (_monitored_addresses self = ∅
            \/ lower s ∈ _monitored_addresses self))
      /\ (_should_process self event = Ok false
          <-> ~ (_monitored_addresses self = ∅
                 \/ lower s ∈ _monitored_addresses self)))
  /\ (forall self address,
         _monitored_addresses (add_monitored_address self address)
         = {[lower (if startswith address "0x" then address
                    else "0x" +:+ address)]}
           ∪ _monitored_addresses self)
  /\ (forall address,
         let self := add_monitored_address __init__ address in
         address ∈ ["0xAB"; "AB"; "0xab"; "ab"]%string ->
         _monitored_addresses self = {["0xab"%string]}
         /\ _should_process self (event_from "0xab") = Ok true
         /\ _should_process self (event_from "0xAB") = Ok true
         /\ _should_process self (event_from "0xAB1") = Ok false
         /\ _should_process self (event_from "0xCD") = Ok false).
Proof.
  split; [| split].
  - intros self event s Hs. rewrite (should_process_str self event s Hs).
    split; split.
    + intros H. injection H as H. by apply bool_decide_eq_true in H.
    + intros H. by rewrite bool_decide_eq_true_2.
    + intros H. injection H as H. by apply bool_decide_eq_false in H.
    + intros H. by rewrite bool_decide_eq_false_2.
  - reflexivity.
  - intros address self Hin. subst self.
    repeat (apply elem_of_cons in Hin as [->|Hin]); [| | | | inversion Hin];
      (split; [vm_compute; reflexivity |]);
      repeat split; vm_compute; reflexivity.
Qed.

Lemma should_process_spec_witness :
  let self := add_monitored_address __init__ "0xAB" in
  _should_process self (event_from "0xAB") = Ok true.
Proof.
  intros self.
  apply (proj1 (proj1 should_process_spec self (event_from "0xAB")
                  "0xAB"%string eq_refl)).
  right. vm_compute. set_solver.
Defined.

(** Four polls: the second returns a page that overlaps the first, the
    third fails. *)
Lemma notified_versions_increasing_witness :
  let tx v := user_transaction v "0xab" [("hash", VStr ("0x" +:+ v))] in
  let self :=
    _monitor_loop year_range_error __init__
      (Ok [("ledger_version", VStr "10")])
      [Poll (Ok [tx "10"; tx "11"; tx "12"]);
       Poll (Ok [tx "12"; tx "13"]);
       Poll (Raise OSError);
       Poll (Ok [tx "14"])] in
  notified_versions self = [11; 12; 13; 14]
  /\ StronglySorted Z.lt (notified_versions self).
Proof.
  intros tx self. split; [vm_compute; reflexivity |].
  destruct (notified_versions_increasing year_range_error __init__
              (Ok [("ledger_version", VStr "10")])
              [Poll (Ok [tx "10"; tx "11"; tx "12"]);
               Poll (Ok [tx "12"; tx "13"]);
               Poll (Raise OSError);
               Poll (Ok [tx "14"])]) as (delivered & Hn & Hs & _).
  unfold notified_versions. fold self in Hn. rewrite Hn. exact Hs.
Defined.

(** A second run of [_monitor_loop] on the same object, as [start()] after
    [stop()] gives, seeds the last-seen version again: when the ledger
    request fails it starts from 0, and the run notifies versions below
    the ones of the first run. *)
Example second_run_seeds_again :
  let tx v := user_transaction v "0xab" [("hash", VStr ("0x" +:+ v))] in
  let first :=
    _monitor_loop year_range_error __init__
      (Ok [("ledger_version", VStr "10")]) [Poll (Ok [tx "11"])] in
  let second :=
    _monitor_loop year_range_error first (Raise OSError) [Poll (Ok [tx "1"])] in
  notified_versions first = [11] /\ notified_versions second = [11; 1].
Proof. split; vm_compute; reflexivity. Qed.

(** Over the lifetime of a monitor the notified versions are not
    increasing, and a version is notified twice: after [stop()] and
    [start()] the loop runs again on the same object and seeds the
    last-seen version anew, here with 0 because the ledger request fails,
    so the record of version 11, which the first run has notified and the
    node returns again, is new to the second run. *)
Lemma restart_notifies_version_again :
  let tx v := user_transaction v "0xab" [("hash", VStr ("0x" +:+ v))] in
  let first :=
    _monitor_loop year_range_error __init__
      (Ok [("ledger_version", VStr "10")]) [Poll (Ok [tx "11"])] in
  let second :=
    _monitor_loop year_range_error first (Raise OSError)
      [Poll (Ok [tx "11"])] in
  notified_versions second = [11; 11]
  /\ ~ StronglySorted Z.lt (notified_versions second)
  /\ ~ NoDup (notified_versions second).
Proof.
  intros tx first second.
  assert (H : notified_versions second = [11; 11]) by (vm_compute; reflexivity).
  rewrite H. split; [reflexivity | split].
  - intros Hs. inversion Hs as [|? ? _ Hall]. inversion Hall. lia.
  - intros Hd. inversion Hd as [|? ? Hnin _]. apply Hnin. left.
Qed.

End TransactionMonitorExamples.

(** * Further properties *)

#[local] Set Warnings "-clear-no-such-hyp".

(** ** Dictionaries *)

Section DictFacts.
Context {V : Type}.
Implicit Types (d : list (string * V)) (k : string) (v : V).

Lemma dict_lookup_set d k v k' :
  dict_lookup k' (dict_set k v d)
  = if decide (k' = k) then Some v else dict_lookup k' d.
Proof.
  induction d as [|[k0 v0] d IH]; cbn.
  - destruct (String.eqb_spec k' k); case_decide; congruence.
  - destruct (String.eqb_spec k k0) as [->|Hne]; cbn.
    + destruct (String.eqb_spec k' k0); case_decide; congruence.
    + destruct (String.eqb_spec k' k0) as [->|Hne'].
      * case_decide; congruence.
      * exact IH.
Qed.

Lemma dict_set_keys d k v :
  (dict_set k v d).*1 = if decide (k ∈ d.*1) then d.*1 else d.*1 ++ [k].
Proof.
  induction d as [|[k0 v0] d IH]; cbn.
  - case_decide as H; [inversion H | reflexivity].
  - destruct (String.eqb_spec k k0) as [->|Hne]; cbn.
    + rewrite decide_True by left. reflexivity.
    + rewrite IH. destruct (decide (k ∈ d.*1)) as [Hin|Hin].
      * rewrite decide_True by (by right). reflexivity.
      * rewrite decide_False; [reflexivity |].
        intros H. apply elem_of_cons in H as [?|?]; congruence.
Qed.

Lemma dict_lookup_None d k : dict_lookup k d = None <-> k ∉ d.*1.
Proof.
  induction d as [|[k0 v0] d IH]; cbn.
  - split; [intros _ H; inversion H | reflexivity].
  - destruct (String.eqb_spec k k0) as [->|Hne].
    + split; [discriminate | intros H; destruct H; left].
    + rewrite IH. rewrite not_elem_of_cons. tauto.
Qed.

Lemma dict_lookup_Some_elem d k v : dict_lookup k d = Some v -> (k, v) ∈ d.
Proof.
  induction d as [|[k0 v0] d IH]; cbn; [discriminate |].
  destruct (String.eqb_spec k k0) as [->|Hne].
  - intros [= ->]. left.
  - intros H. right. auto.
Qed.

Lemma dict_del_absent d k : k ∉ d.*1 -> dict_del k d = d.
Proof.
  induction d as [|[k0 v0] d IH]; cbn; [reflexivity |].
  rewrite not_elem_of_cons. intros [Hne Hin].
  destruct (String.eqb_spec k k0); [congruence |]. by rewrite IH.
Qed.

Lemma dict_del_keys_sublist d k : (dict_del k d).*1 `sublist_of` d.*1.
Proof.
  induction d as [|[k0 v0] d IH]; cbn; [reflexivity |].
  destruct (String.eqb_spec k k0); cbn.
  - by apply sublist_cons.
  - by apply sublist_skip.
Qed.

Lemma dict_del_sublist d k : dict_del k d `sublist_of` d.
Proof.
  induction d as [|[k0 v0] d IH]; cbn; [reflexivity |].
  destruct (String.eqb_spec k k0); cbn.
  - by apply sublist_cons.
  - by apply sublist_skip.
Qed.

Lemma dict_lookup_del d k k' :
  NoDup d.*1 ->
  dict_lookup k' (dict_del k d)
  = if decide (k' = k) then None else dict_lookup k' d.
Proof.
  induction d as [|[k0 v0] d IH]; cbn; intros Hnd.
  - by case_decide.
  - apply NoDup_cons in Hnd as [Hk0 Hnd].
    destruct (String.eqb_spec k k0) as [->|Hne]; cbn.
    + destruct (String.eqb_spec k' k0) as [->|Hne'].
      * rewrite decide_True by done. by apply dict_lookup_None.
      * by rewrite decide_False.
    + destruct (String.eqb_spec k' k0) as [->|Hne'].
      * by rewrite decide_False.
      * by apply IH.
Qed.

Lemma dict_set_twice d k v v' :
  dict_set k v (dict_set k v' d) = dict_set k v d.
Proof.
  induction d as [|[k0 v0] d IH]; cbn.
  - by rewrite String.eqb_refl.
  - destruct (String.eqb_spec k k0) as [->|Hne]; cbn.
    + by rewrite String.eqb_refl.
    + destruct (String.eqb_spec k k0); [done |]. by rewrite IH.
Qed.

End DictFacts.

Section PolicyEngineMore.
Import PolicyEngine ComplianceRoutes.

Lemma add_policy_policies self p :
  _policies (fst (add_policy self p)) = dict_set (name p) p (_policies self).
Proof.
  unfold add_policy. destruct (policy_type p); try reflexivity.
  destruct (iter _); [| reflexivity].
  destruct (update_lower _ _). reflexivity.
Qed.

(** X1.  [add_policy] is an upsert: afterwards [get_policy] returns the
    given policy under its name and what it returned before under every
    other name; a policy whose name is registered keeps its place in the
    registry, a new one goes to the end.  This holds also when the call
    raises on a malformed address list. *)
Theorem add_policy_upserts self p :
  (forall n,
     get_policy (fst (add_policy self p)) n
     = if decide (n = name p) then Some p else get_policy self n)
  /\ (_policies (fst (add_policy self p))).*1
     = (if decide (name p ∈ (_policies self).*1) then (_policies self).*1
        else (_policies self).*1 ++ [name p]).
Proof.
  split.
  - intros n. unfold get_policy. rewrite add_policy_policies.
    apply dict_lookup_set.
  - rewrite add_policy_policies. apply dict_set_keys.
Qed.

(** X2.  In a registry that is a [dict], [remove_policy] makes
    [get_policy] return nothing for the removed name and leaves every
    other name as it was; removing a name that is not registered changes
    nothing. *)
Theorem remove_policy_get_policy self n :
  registry_ok self ->
  (forall m,
     get_policy (remove_policy self n) m
     = if decide (m = n) then None else get_policy self m)
  /\ (get_policy self n = None -> remove_policy self n = self).
Proof.
  intros [Hnd _]. split.
  - intros m. unfold get_policy; cbn. by apply dict_lookup_del.
  - unfold get_policy, remove_policy. intros H%dict_lookup_None.
    rewrite dict_del_absent by done. by destruct self.
Qed.

Lemma registry_ok_intro d cache :
  NoDup d.*1 -> Forall (fun kp => name kp.2 = kp.1) d ->
  registry_ok {| _policies := d; _blocked_addresses := cache |}.
Proof. by split. Qed.

Lemma dict_set_ok (d : list (string * CompliancePolicy)) k p :
  name p = k ->
  NoDup d.*1 -> Forall (fun kp => name kp.2 = kp.1) d ->
  NoDup (dict_set k p d).*1
  /\ Forall (fun kp => name kp.2 = kp.1) (dict_set k p d).
Proof.
  intros Hk Hnd Hall. split.
  - rewrite dict_set_keys. case_decide as Hin; [exact Hnd |].
    apply NoDup_app. split; [exact Hnd |]. split.
    + intros x Hx Hx'. apply list_elem_of_singleton in Hx' as ->. done.
    + apply NoDup_singleton.
  - clear Hnd. induction Hall as [|[k0 p0] d H0 Hall IH]; cbn.
    + by repeat constructor.
    + destruct (String.eqb_spec k k0); constructor; auto.
Qed.

Lemma registry_ok_add_policy self p :
  registry_ok self -> registry_ok (fst (add_policy self p)).
Proof.
  intros [Hnd Hall]. unfold registry_ok. rewrite add_policy_policies.
  by apply dict_set_ok.
Qed.

Lemma registry_ok_lookup self n p :
  registry_ok self -> get_policy self n = Some p -> name p = n.
Proof.
  intros [_ Hall] H%dict_lookup_Some_elem.
  rewrite Forall_forall in Hall. exact (Hall _ H).
Qed.

Lemma registry_ok_add_blocked_address self a :
  registry_ok self -> registry_ok (fst (add_blocked_address self a)).
Proof.
  intros Hok. pose proof Hok as [Hnd Hall]. unfold add_blocked_address.
  destruct (dict_lookup "blocked_addresses" (_policies self)) as [p|] eqn:Hp;
    [| exact Hok].
  destruct (str_in a _) as [[|]|]; [exact Hok | | exact Hok].
  destruct (get (config p) "addresses" (VList [])); try exact Hok.
  cbn. apply dict_set_ok; [| exact Hnd | exact Hall].
  cbn. eapply registry_ok_lookup; [exact Hok | exact Hp].
Qed.

Lemma registry_ok_remove_policy self n :
  registry_ok self -> registry_ok (remove_policy self n).
Proof.
  intros [Hnd Hall]. split; cbn.
  - eapply sublist_NoDup; [exact Hnd | apply dict_del_keys_sublist].
  - rewrite Forall_forall in Hall |- *. intros x Hx. apply Hall.
    eapply sublist_subseteq; [apply dict_del_sublist | exact Hx].
Qed.

Lemma registry_ok_toggle self n self' r :
  registry_ok self -> toggle_policy self n = Some (self', r) ->
  registry_ok self'.
Proof.
  intros Hok. pose proof Hok as [Hnd Hall]. unfold toggle_policy.
  destruct (get_policy self n) as [p|] eqn:Hp; [| discriminate].
  pose proof (registry_ok_lookup self n p Hok Hp) as Hn.
  set (p' := {| name := name p; policy_type := policy_type p;
                severity := severity p; description := description p;
                enabled := negb (enabled p); config := config p |}).
  set (self1 := {| _policies := dict_set n p' (_policies self);
                   _blocked_addresses := _blocked_addresses self |}).
  assert (Hok1 : registry_ok self1) by (by apply dict_set_ok).
  pose proof (registry_ok_add_policy self1 p' Hok1) as Hok2.
  destruct (add_policy self1 p') as [self2 [e|]]; intros [= <- _]; exact Hok2.
Qed.

Lemma registry_ok_step self c :
  registry_ok self -> registry_ok (engine_step self c).
Proof.
  intros Hok. destruct c as [p|n|a|a|n]; cbn.
  - by apply registry_ok_add_policy.
  - by apply registry_ok_remove_policy.
  - by apply registry_ok_add_blocked_address.
  - exact Hok.
  - destruct (toggle_policy self n) as [[self' r]|] eqn:Ht; [| exact Hok].
    eapply registry_ok_toggle; eauto.
Qed.

Lemma registry_ok_init : registry_ok __init__.
Proof.
  rewrite init_eq. split; cbn.
  - apply (bool_decide_unpack _). vm_compute. exact I.
  - repeat constructor.
Qed.

(** X3.  The registry stays a [dict] under every call of the engine:
    starting from a fresh engine, after any sequence of [add_policy],
    [remove_policy], [add_blocked_address], [remove_blocked_address] and
    policy toggles, no name is registered twice and every policy is filed
    under its own name. *)
Theorem registry_stays_a_dict (calls : list engine_call) :
  registry_ok (foldl engine_step __init__ calls).
Proof.
  generalize registry_ok_init. generalize __init__.
  induction calls as [|c calls IH]; intros self Hok; cbn; [exact Hok |].
  apply IH, registry_ok_step, Hok.
Qed.


Lemma check_contracts_name policy func cs v :
  check_contracts policy func cs = Ok (Some v) ->
  exists msg d, v = violation policy msg d.
Proof.
  induction cs as [|c cs IH]; cbn; [discriminate |].
  destruct (lower_of c) as [lc|]; cbn; [| discriminate].
  destruct (lower_of func) as [lf|]; cbn; [| discriminate].
  destruct (str_contains lc lf); [| exact IH].
  intros [= <-]. eauto.
Qed.

(** A violation is built from the policy that reported it. *)
Lemma check_policy_violation self policy sender receiver value gas_used payload v :
  _check_policy self policy sender receiver value gas_used payload
  = Ok (Some v) ->
  exists msg d, v = violation policy msg d.
Proof.
  unfold _check_policy. destruct (policy_type policy).
  - destruct (dict_lookup "max_value" _) as [mv|]; [| discriminate].
    destruct (int_gt value mv) as [[|]|]; cbn; try discriminate.
    intros [= <-]. eauto.
  - repeat case_bool_decide; try discriminate; intros [= <-]; eauto.
  - destruct (dict_lookup "max_gas" _) as [mv|]; [| discriminate].
    destruct (int_gt gas_used mv) as [[|]|]; cbn; try discriminate.
    intros [= <-]. eauto.
  - discriminate.
  - destruct payload as [[|? ?]|]; try discriminate.
    destruct (iter _) as [items|]; cbn; [| discriminate].
    apply check_contracts_name.
  - discriminate.
Qed.

Lemma check_loop_summary self ps sender receiver value gas_used payload :
  forall vs0 n0 vs n,
    check_loop self ps sender receiver value gas_used payload vs0 n0
    = Ok (vs, n) ->
    exists new,
      vs = vs0 ++ new
      /\ n = n0 + Z.of_nat (length (List.filter enabled ps))
      /\ policy_name <$> new `sublist_of` name <$> List.filter enabled ps
      /\ Forall (fun v => exists p, p ∈ ps /\ enabled p = true
                                   /\ policy_name v = name p
                                   /\ violation_severity v = severity p
                                   /\ violation_type v = policy_type p) new.
Proof.
  induction ps as [|p ps IH]; cbn; intros vs0 n0 vs n H.
  - injection H as <- <-. exists []. rewrite app_nil_r.
    split; [reflexivity |]. split; [lia |]. split; constructor.
  - destruct (enabled p) eqn:Hen.
    + destruct (_check_policy self p sender receiver value gas_used payload)
        as [o|] eqn:Hc; cbn in H; [| discriminate].
      apply IH in H as (new & -> & -> & Hsub & Hall).
      assert (Hall' : Forall
                (fun v => exists p0, p0 ∈ p :: ps /\ enabled p0 = true
                                     /\ policy_name v = name p0
                                     /\ violation_severity v = severity p0
                                     /\ violation_type v = policy_type p0) new).
      { eapply Forall_impl; [exact Hall |]. cbn.
        intros v (p0 & ? & ?). exists p0. split; [by right | done]. }
      destruct o as [v|].
      * apply check_policy_violation in Hc as (msg & d & ->).
        exists (violation p msg d :: new). rewrite <- app_assoc. cbn.
        split; [reflexivity |]. split; [lia |].
        split; [by apply sublist_skip |].
        constructor; [| exact Hall'].
        exists p. repeat split; [left | exact Hen].
      * exists new. split; [reflexivity |]. cbn. split; [lia |].
        split; [by apply sublist_cons | exact Hall'].
    + apply IH in H as (new & -> & -> & Hsub & Hall).
      exists new. repeat split; try done.
      eapply Forall_impl; [exact Hall |]. cbn.
      intros v (p0 & ? & ?). exists p0. split; [by right | done].
Qed.

(** X4.  When [check_transaction] returns, [policies_checked] is the
    number of enabled policies, [passed] holds exactly when there is no
    violation, and the violations come from enabled registered policies in
    registration order, at most one per policy, each carrying the name,
    severity and type of its policy. *)
Theorem check_transaction_summary
    self sender receiver value gas_used payload res :
  check_transaction self sender receiver value gas_used payload = Ok res ->
  policies_checked res = count_policies enabled self
  /\ (passed res = true <-> violations res = [])
  /\ policy_name <$> violations res
       `sublist_of` name <$> List.filter enabled (list_policies self)
  /\ Forall (fun v => exists p, p ∈ list_policies self /\ enabled p = true
                                /\ policy_name v = name p
                                /\ violation_severity v = severity p
                                /\ violation_type v = policy_type p)
       (violations res).
Proof.
  unfold check_transaction. intros H.
  apply bind_Ok in H as ([vs n] & Hl & H). injection H as <-. cbn.
  apply check_loop_summary in Hl as (new & -> & -> & Hsub & Hall). cbn.
  split; [unfold count_policies, list_policies; lia |].
  split; [| split; [exact Hsub | exact Hall]].
  rewrite bool_decide_eq_true. destruct new; cbn; split; congruence.
Qed.

Lemma check_transaction_summary_witness :
  exists res,
    check_transaction __init__ "0x1" None 2000000000000 200000 None = Ok res
    /\ policies_checked res = 4
    /\ policy_name <$> violations res
       = ["max_transaction_value"; "high_gas_warning"]%string.
Proof.
  assert (H : exists res,
             check_transaction __init__ "0x1" None 2000000000000 200000 None
             = Ok res
             /\ policy_name <$> violations res
                = ["max_transaction_value"; "high_gas_warning"]%string).
  { eexists. split; vm_compute; reflexivity. }
  destruct H as (res & H & Hn). exists res. split; [exact H |].
  split; [| exact Hn].
  destruct (check_transaction_summary _ _ _ _ _ _ _ H) as (Hc & _).
  rewrite Hc. vm_compute. reflexivity.
Defined.


(** X5.  A gas-limit policy configured with the integer [max_gas] reports
    a violation, with the message and details of the source, exactly when
    [gas_used > max_gas]. *)
Theorem check_policy_gas_limit
    self policy sender receiver value gas_used payload max_gas :
  policy_type policy = GAS_LIMIT ->
  dict_lookup "max_gas" (config policy) = Some (VInt max_gas) ->
  _check_policy self policy sender receiver value gas_used payload
  = Ok (if bool_decide (max_gas < gas_used)
        then Some (violation policy
                     ("Gas usage " +:+ str_of_int gas_used +:+
                      " exceeds threshold " +:+ str_of_int max_gas)
                     [("gas_used", VInt gas_used); ("max_gas", VInt max_gas)])
        else None).
Proof.
  intros Ht Hc. unfold _check_policy. rewrite Ht, Hc. cbn.
  destruct (Z.ltb_spec max_gas gas_used).
  - by rewrite bool_decide_eq_true_2.
  - rewrite bool_decide_eq_false_2 by lia. reflexivity.
Qed.

Lemma check_policy_gas_limit_witness :
  let policy := {| name := "high_gas_warning"; policy_type := GAS_LIMIT;
                   severity := MEDIUM; description := ""; enabled := true;
                   config := [("max_gas", VInt 100000)] |} in
  _check_policy __init__ policy "0x1" None 0 100000 None = Ok None.
Proof.
  intros policy.
  exact (check_policy_gas_limit __init__ policy "0x1"%string None 0 100000
           None 100000 eq_refl eq_refl).
Defined.

Lemma check_contracts_find policy (f : string) (cs : list string) :
  check_contracts policy (VStr f) (VStr <$> cs)
  = Ok (match List.find (fun c => str_contains (lower c) (lower f)) cs with
        | Some c =>
            Some (violation policy
                    ("Interaction with suspicious contract: " +:+ c)
                    [("contract", VStr c); ("function", VStr f)])
        | None => None
        end).
Proof.
  induction cs as [|c cs IH]; cbn; [reflexivity |].
  destruct (str_contains (lower c) (lower f)); [reflexivity | exact IH].
Qed.

(** X6.  For a non-empty payload whose function is a string, a
    contract-interaction policy with a list of contract strings reports
    the first configured contract that occurs, ignoring case, in the
    function name, and nothing when none does. *)
Theorem check_policy_contract_interaction
    self policy sender receiver value gas_used (payload : dict)
    (f : string) (cs : list string) :
  policy_type policy = CONTRACT_INTERACTION ->
  payload <> [] ->
  get payload "function" (VStr "") = VStr f ->
  get (config policy) "contracts" (VList []) = VList (VStr <$> cs) ->
  _check_policy self policy sender receiver value gas_used (Some payload)
  = Ok (match List.find (fun c => str_contains (lower c) (lower f)) cs with
        | Some c =>
            Some (violation policy
                    ("Interaction with suspicious contract: " +:+ c)
                    [("contract", VStr c); ("function", VStr f)])
        | None => None
        end).
Proof.
  intros Ht Hp Hf Hc. unfold _check_policy. rewrite Ht.
  destruct payload as [|kv payload]; [done |].
  rewrite Hf, Hc. cbn. apply check_contracts_find.
Qed.

Lemma check_policy_contract_interaction_witness :
  let policy := {| name := "suspicious_contracts";
                   policy_type := CONTRACT_INTERACTION;
                   severity := HIGH; description := ""; enabled := true;
                   config := [("contracts",
                               VList [VStr "0xBAD::mixer"; VStr "0xbad"])] |} in
  exists v,
    _check_policy __init__ policy "0x1" None 0 0
      (Some [("function", VStr "0xbad::Mixer::deposit")]) = Ok (Some v)
    /\ message v = "Interaction with suspicious contract: 0xBAD::mixer"%string.
Proof.
  intros policy. eexists. split.
  - apply (check_policy_contract_interaction __init__ policy "0x1"%string
             None 0 0 [("function", VStr "0xbad::Mixer::deposit")]
             "0xbad::Mixer::deposit" ["0xBAD::mixer"; "0xbad"]%string);
      [reflexivity | discriminate | reflexivity | reflexivity].
  - reflexivity.
Defined.

Lemma check_loop_raises self ps sender receiver value gas_used payload p e :
  p ∈ ps -> enabled p = true ->
  _check_policy self p sender receiver value gas_used payload = Raise e ->
  forall vs0 n0,
    exists e',
      check_loop self ps sender receiver value gas_used payload vs0 n0
      = Raise e'.
Proof.
  intros Hin Hen Hr. induction ps as [|q ps IH]; [inversion Hin |].
  intros vs0 n0. cbn.
  apply elem_of_cons in Hin as [<- | Hin].
  - rewrite Hen, Hr. cbn. eauto.
  - destruct (enabled q); [| by apply IH].
    destruct (_check_policy self q _ _ _ _ _); cbn; [by apply IH | eauto].
Qed.

(** X8.  One enabled value or gas ceiling whose configured threshold is
    not a number (a string, [None], a list or a dict) makes every call of
    [check_transaction] raise, whatever the transaction is. *)
Theorem check_transaction_bad_threshold
    self policy threshold sender receiver value gas_used payload :
  policy ∈ list_policies self ->
  enabled policy = true ->
  (policy_type policy = TRANSACTION_VALUE
   /\ dict_lookup "max_value" (config policy) = Some threshold)
  \/ (policy_type policy = GAS_LIMIT
      /\ dict_lookup "max_gas" (config policy) = Some threshold) ->
  match threshold with VInt _ | VBool _ => False | _ => True end ->
  exists e,
    check_transaction self sender receiver value gas_used payload = Raise e.
Proof.
  intros Hin Hen Hcfg Hbad.
  assert (Hr : _check_policy self policy sender receiver value gas_used payload
               = Raise TypeError).
  { unfold _check_policy.
    destruct Hcfg as [[-> ->] | [-> ->]]; destruct threshold; done. }
  destruct (check_loop_raises self (list_policies self) sender receiver value
              gas_used payload policy TypeError Hin Hen Hr [] 0) as [e' He'].
  exists e'. unfold check_transaction, list_policies in *. rewrite He'.
  reflexivity.
Qed.

Lemma check_transaction_bad_threshold_witness :
  let policy := {| name := "cap"; policy_type := TRANSACTION_VALUE;
                   severity := HIGH; description := ""; enabled := true;
                   config := [("max_value", VStr "1000")] |} in
  exists e,
    check_transaction (fst (add_policy __init__ policy)) "0x1" None 0 0 None
    = Raise e.
Proof.
  intros policy.
  apply (check_transaction_bad_threshold (fst (add_policy __init__ policy))
           policy (VStr "1000")).
  - vm_compute. set_solver.
  - reflexivity.
  - left. split; reflexivity.
  - exact I.
Defined.

Lemma count_by_severity (l : list CompliancePolicy) :
  foldr Z.add 0
    ((fun sev =>
        Z.of_nat (length (List.filter
                            (fun p => severity_eqb (severity p) sev) l)))
       <$> [INFO; LOW; MEDIUM; HIGH; CRITICAL])
  = Z.of_nat (length l).
Proof.
  induction l as [|p l IH]; [reflexivity |].
  cbn in *. destruct (severity p); cbn; lia.
Qed.

Lemma count_by_type (l : list CompliancePolicy) :
  foldr Z.add 0
    ((fun pt =>
        Z.of_nat (length (List.filter
                            (fun p => type_eqb (policy_type p) pt) l)))
       <$> [TRANSACTION_VALUE; BLOCKED_ADDRESS; GAS_LIMIT; FUNCTION_CALL;
            CONTRACT_INTERACTION; CUSTOM])
  = Z.of_nat (length l).
Proof.
  induction l as [|p l IH]; [reflexivity |].
  cbn in *. destruct (policy_type p); cbn; lia.
Qed.

(** X9.  In the result of [get_policy_stats], the per-severity counts add
    up to [total_policies], so do the per-type counts, [enabled_policies]
    lies between 0 and the total, and [blocked_addresses] is the size of
    the cache. *)
Theorem get_policy_stats_consistent (self : engine) :
  let stats := get_policy_stats self in
  let total := Z.of_nat (length (list_policies self)) in
  dict_lookup "total_policies" stats = Some (VInt total)
  /\ (exists by_severity,
        dict_lookup "by_severity" stats = Some (VDict by_severity)
        /\ by_severity.*1 = ["info"; "low"; "medium"; "high"; "critical"]%string
        /\ sum_counts by_severity = total)
  /\ (exists by_type,
        dict_lookup "by_type" stats = Some (VDict by_type)
        /\ sum_counts by_type = total)
  /\ (exists enabled_policies,
        dict_lookup "enabled_policies" stats = Some (VInt enabled_policies)
        /\ 0 <= enabled_policies <= total)
  /\ dict_lookup "blocked_addresses" stats
     = Some (VInt (Z.of_nat (size (_blocked_addresses self)))).
Proof.
  intros stats total. subst stats total. unfold list_policies.
  rewrite length_fmap.
  split; [reflexivity |]. split; [| split; [| split; [| reflexivity]]].
  - eexists. split; [reflexivity |]. split; [reflexivity |].
    rewrite <- (length_fmap snd (_policies self)).
    rewrite <- (count_by_severity (_policies self).*2).
    unfold count_policies, list_policies. cbn. lia.
  - eexists. split; [reflexivity |].
    rewrite <- (length_fmap snd (_policies self)).
    rewrite <- (count_by_type (_policies self).*2).
    unfold count_policies, list_policies. cbn. lia.
  - eexists. split; [reflexivity |].
    unfold count_policies, list_policies.
    rewrite <- (length_fmap snd (_policies self)).
    pose proof (List.filter_length_le enabled (_policies self).*2). lia.
Qed.


Lemma update_lower_strings cache (l : list string) (rest : list pyval) :
  update_lower cache ((VStr <$> l) ++ rest)
  = update_lower (list_to_set (lower <$> l) ∪ cache) rest.
Proof.
  revert cache. induction l as [|a l IH]; intros cache; cbn.
  - f_equal. set_solver.
  - rewrite IH. f_equal. set_solver.
Qed.

(** X10.  [add_policy] of a blocked-address policy whose configured
    addresses are a list of strings registers the policy, adds the
    lower-cased addresses to the cache and keeps what the cache held. *)
Theorem add_policy_merges_addresses self policy (l : list string) :
  policy_type policy = BLOCKED_ADDRESS ->
  get (config policy) "addresses" (VList []) = VList (VStr <$> l) ->
  add_policy self policy
  = ({| _policies := dict_set (name policy) policy (_policies self);
        _blocked_addresses :=
          list_to_set (lower <$> l) ∪ _blocked_addresses self |}, None).
Proof.
  intros Ht Hc. unfold add_policy. rewrite Ht, Hc. cbn.
  rewrite <- (app_nil_r (VStr <$> l)), update_lower_strings. reflexivity.
Qed.

Lemma add_policy_merges_addresses_witness :
  let policy := {| name := "sanctions"; policy_type := BLOCKED_ADDRESS;
                   severity := CRITICAL; description := ""; enabled := true;
                   config := [("addresses",
                               VList [VStr "0xAA"; VStr "0xBb"])] |} in
  _blocked_addresses (fst (add_policy __init__ policy))
  = {["0xaa"; "0xbb"]}%string.
Proof.
  intros policy.
  rewrite (add_policy_merges_addresses __init__ policy ["0xAA"; "0xBb"]%string
             eq_refl eq_refl).
  vm_compute. reflexivity.
Defined.

(** X11.  When the configured address list of a blocked-address policy
    has an element that is not a string, [add_policy] raises
    [AttributeError] at that element; the policy is registered
    nonetheless and the addresses before the element are in the cache. *)
Theorem add_policy_bad_address
    self policy (l : list string) (bad : pyval) (rest : list pyval) :
  policy_type policy = BLOCKED_ADDRESS ->
  get (config policy) "addresses" (VList [])
  = VList ((VStr <$> l) ++ bad :: rest) ->
  (forall a, bad <> VStr a) ->
  add_policy self policy
  = ({| _policies := dict_set (name policy) policy (_policies self);
        _blocked_addresses :=
          list_to_set (lower <$> l) ∪ _blocked_addresses self |},
     Some AttributeError).
Proof.
  intros Ht Hc Hbad. unfold add_policy. rewrite Ht, Hc. cbn.
  rewrite update_lower_strings. cbn.
  destruct bad; try reflexivity. by destruct (Hbad s).
Qed.

Lemma add_policy_bad_address_witness :
  let policy := {| name := "sanctions"; policy_type := BLOCKED_ADDRESS;
                   severity := CRITICAL; description := ""; enabled := true;
                   config := [("addresses",
                               VList [VStr "0xAA"; VInt 7; VStr "0xBB"])] |} in
  _blocked_addresses (fst (add_policy __init__ policy)) = {["0xaa"%string]}
  /\ snd (add_policy __init__ policy) = Some AttributeError
  /\ get_policy (fst (add_policy __init__ policy)) "sanctions" = Some policy.
Proof.
  intros policy.
  rewrite (add_policy_bad_address __init__ policy ["0xAA"%string]
             (VInt 7) [VStr "0xBB"] eq_refl eq_refl ltac:(discriminate)).
  split; [vm_compute; reflexivity | split; reflexivity].
Defined.

(** X12.  Calling [add_blocked_address] a second time with the same
    address leaves the engine as the first call left it: the configured
    list does not get the address twice. *)
Theorem add_blocked_address_idempotent self address :
  fst (add_blocked_address (fst (add_blocked_address self address)) address)
  = fst (add_blocked_address self address).
Proof.
  assert (Hset : forall s : gset string,
             {[lower address]} ∪ ({[lower address]} ∪ s)
             = {[lower address]} ∪ s) by set_solver.
  unfold add_blocked_address at 2 3.
  destruct (dict_lookup "blocked_addresses" (_policies self)) as [p|] eqn:Hp.
  2:{ unfold add_blocked_address; cbn. rewrite Hp. cbn. by rewrite Hset. }
  destruct (str_in address (get (config p) "addresses" (VList [])))
    as [[|]|] eqn:Hin.
  1,3: unfold add_blocked_address; cbn; rewrite Hp, Hin; cbn; by rewrite Hset.
  destruct (get (config p) "addresses" (VList [])) as [| | | |l|] eqn:Hg.
  1-4,6: unfold add_blocked_address; cbn; rewrite Hp, Hg, Hin; cbn;
         by rewrite Hset.
  unfold add_blocked_address; cbn.
  rewrite dict_lookup_set, decide_True by done. cbn.
  rewrite dict_lookup_set, decide_True by done. cbn.
  rewrite existsb_app; cbn. rewrite String.eqb_refl, orb_true_r. cbn.
  by rewrite Hset.
Qed.

Lemma update_lower_mono cache items : cache ⊆ (update_lower cache items).1.
Proof.
  revert cache. induction items as [|a items IH]; intros cache; cbn; [done |].
  destruct (lower_of a); cbn; [| done].
  etrans; [| apply IH]. set_solver.
Qed.

Lemma add_policy_cache_mono self p :
  _blocked_addresses self ⊆ _blocked_addresses (add_policy self p).1.
Proof.
  unfold add_policy. destruct (policy_type p); try done.
  destruct (iter _) as [items|]; [| done].
  pose proof (update_lower_mono (_blocked_addresses self) items) as H.
  by destruct (update_lower _ items).
Qed.

(** X13.  In a registry that is a [dict], toggling an unknown name is
    refused and leaves the engine alone; toggling a registered policy
    flips its [enabled] flag, keeps every other policy and the order of
    the registry, and removes nothing from the cache. *)
Theorem toggle_policy_flips self n :
  registry_ok self ->
  match get_policy self n with
  | None => toggle_policy self n = None
  | Some p =>
      exists self' r,
        toggle_policy self n = Some (self', r)
        /\ (_policies self').*1 = (_policies self).*1
        /\ (forall m,
              get_policy self' m
              = if decide (m = n)
                then Some {| name := name p; policy_type := policy_type p;
                             severity := severity p;
                             description := description p;
                             enabled := negb (enabled p);
                             config := config p |}
                else get_policy self m)
        /\ _blocked_addresses self ⊆ _blocked_addresses self'
  end.
Proof.
  intros Hok. unfold toggle_policy.
  destruct (get_policy self n) as [p|] eqn:Hp; [| reflexivity].
  pose proof (registry_ok_lookup self n p Hok Hp) as Hn.
  set (p' := {| name := name p; policy_type := policy_type p;
                severity := severity p; description := description p;
                enabled := negb (enabled p); config := config p |}).
  set (self1 := {| _policies := dict_set n p' (_policies self);
                   _blocked_addresses := _blocked_addresses self |}).
  assert (Hin : n ∈ (_policies self).*1).
  { destruct (decide (n ∈ (_policies self).*1)) as [|Hnot]; [done |].
    apply dict_lookup_None in Hnot. unfold get_policy in Hp. congruence. }
  assert (Hpol : _policies (add_policy self1 p').1
                 = dict_set n p' (_policies self)).
  { rewrite add_policy_policies. cbn. rewrite Hn. apply dict_set_twice. }
  assert (Hcache : _blocked_addresses self
                   ⊆ _blocked_addresses (add_policy self1 p').1)
    by apply (add_policy_cache_mono self1 p').
  destruct (add_policy self1 p') as [self2 [e|]] eqn:Ha; cbn in *;
    eexists _, _; (split; [reflexivity |]);
    (split; [rewrite Hpol, dict_set_keys, decide_True by done; done |]);
    (split; [| exact Hcache]);
    intros m; unfold get_policy; rewrite Hpol; apply dict_lookup_set.
Qed.


Lemma toggle_policy_flips_witness :
  exists self' r,
    toggle_policy __init__ "high_gas_warning" = Some (self', r)
    /\ (enabled <$> get_policy self' "high_gas_warning") = Some false
    /\ (_policies self').*1 = (_policies __init__).*1.
Proof.
  pose proof (toggle_policy_flips __init__ "high_gas_warning"
                registry_ok_init) as H.
  cbn in H. destruct H as (self' & r & Ht & Hk & Hg & _).
  exists self', r. split; [exact Ht |]. split; [| exact Hk].
  rewrite Hg. reflexivity.
Defined.

(** X14.  Toggling a blocked-address policy hands it to [add_policy]
    again, so its configured addresses are merged into the cache once
    more: an address taken out with [remove_blocked_address] is blocked
    again after a toggle. *)
Theorem toggle_policy_merges_again self n p (l : list string) :
  registry_ok self ->
  get_policy self n = Some p ->
  policy_type p = BLOCKED_ADDRESS ->
  get (config p) "addresses" (VList []) = VList (VStr <$> l) ->
  exists self',
    toggle_policy self n = Some (self', Ok (negb (enabled p)))
    /\ _blocked_addresses self'
       = list_to_set (lower <$> l) ∪ _blocked_addresses self.
Proof.
  intros Hok Hp Ht Hc. unfold toggle_policy. rewrite Hp.
  unfold add_policy. cbn [policy_type config]. rewrite Ht, Hc. cbn [iter].
  pose proof (update_lower_strings (_blocked_addresses self) l []) as Hu.
  rewrite app_nil_r in Hu. cbn [_blocked_addresses]. rewrite Hu. cbn.
  eexists. split; reflexivity.
Qed.

Lemma toggle_policy_merges_again_witness :
  let self1 := fst (add_blocked_address __init__ "0xDEAD") in
  let self2 := remove_blocked_address self1 "0xdead" in
  exists self3,
    toggle_policy self2 "blocked_addresses" = Some (self3, Ok false)
    /\ _blocked_addresses self2 = ∅
    /\ _blocked_addresses self3 = {["0xdead"%string]}.
Proof.
  intros self1 self2.
  destruct (toggle_policy_merges_again self2 "blocked_addresses"
              {| name := "blocked_addresses"; policy_type := BLOCKED_ADDRESS;
                 severity := CRITICAL;
                 description :=
                   "Block transactions involving sanctioned addresses";
                 enabled := true;
                 config := [("addresses", VList [VStr "0xDEAD"])] |}
              ["0xDEAD"%string])
    as (self3 & Ht & Hc).
  - apply (registry_ok_step _ (RemoveBlocked "0xdead")),
      (registry_ok_step _ (AddBlocked "0xDEAD")), registry_ok_init.
  - reflexivity.
  - reflexivity.
  - reflexivity.
  - exists self3. split; [exact Ht |]. split; [vm_compute; reflexivity |].
    rewrite Hc. vm_compute. reflexivity.
Defined.


(** X15.  Only [remove_blocked_address] takes addresses out of the
    cache: [add_policy], [remove_policy], [add_blocked_address] and a
    toggle keep every address the cache holds. *)
Theorem cache_shrinks_only_on_remove (self : engine) (c : engine_call) :
  (forall a, c <> RemoveBlocked a) ->
  _blocked_addresses self ⊆ _blocked_addresses (engine_step self c).
Proof.
  intros Hc. destruct c as [p|n|a|a|n]; cbn.
  - apply add_policy_cache_mono.
  - done.
  - unfold add_blocked_address.
    destruct (dict_lookup _ _) as [p|]; [| cbn; set_solver].
    destruct (str_in _ _) as [[|]|]; [cbn; set_solver | | cbn; set_solver].
    destruct (get _ _ _); cbn; set_solver.
  - by destruct (Hc a).
  - unfold toggle_policy. destruct (get_policy self n) as [p|]; [| done].
    match goal with
    | |- context [add_policy ?s ?q] =>
        pose proof (add_policy_cache_mono s q) as H;
        destruct (add_policy s q) as [self2 [e|]]
    end; exact H.
Qed.

Lemma cache_shrinks_only_on_remove_witness :
  let self := fst (add_blocked_address __init__ "0xDEAD") in
  "0xdead"%string ∈ _blocked_addresses (engine_step self (RemovePolicy "blocked_addresses")).
Proof.
  intros self.
  apply (cache_shrinks_only_on_remove self (RemovePolicy "blocked_addresses")
           ltac:(discriminate)).
  vm_compute. set_solver.
Defined.


Lemma remove_policy_get_policy_witness :
  get_policy (remove_policy __init__ "high_gas_warning") "high_gas_warning"
  = None
  /\ is_Some (get_policy (remove_policy __init__ "high_gas_warning")
                "blocked_addresses").
Proof.
  destruct (remove_policy_get_policy __init__ "high_gas_warning"
              registry_ok_init) as [H _].
  rewrite !H. split; [reflexivity | vm_compute; eauto].
Defined.

End PolicyEngineMore.

(** ** Risk scorer, continued *)

Section RiskScorerMore.
Import RiskScorer.

#[local] Arguments _score_compliance : simpl never.
#[local] Arguments _score_vulnerabilities : simpl never.
#[local] Arguments _score_anomalies : simpl never.
#[local] Arguments accumulate : simpl never.

Lemma policy_severity_score (s : PolicyEngine.PolicySeverity) :
  severity_score (PolicyEngine.severity_value s) ∈ [5; 15; 35; 65; 95].
Proof. destruct s; vm_compute; set_solver. Qed.

Lemma score_compliance_worst (result : PolicyEngine.ComplianceResult) y l :
  PolicyEngine.violations result = y :: l ->
  exists worst,
    worst ∈ y :: l
    /\ (forall v, v ∈ y :: l ->
          severity_score (PolicyEngine.severity_value
                            (PolicyEngine.violation_severity v))
          <= severity_score (PolicyEngine.severity_value
                               (PolicyEngine.violation_severity worst)))
    /\ _score_compliance result
       = Z.min 100
           (severity_score (PolicyEngine.severity_value
                              (PolicyEngine.violation_severity worst))
            + Z.min (5 * Z.of_nat (length (y :: l))) 25).
Proof.
  intros E. unfold _score_compliance. rewrite E.
  destruct (foldl_max_worst
              (fun v => severity_score (PolicyEngine.severity_value
                                          (PolicyEngine.violation_severity v)))
              y l) as (worst & Hin & Hub & Hmax).
  { intros x. apply severity_score_nonneg. }
  exists worst. split; [exact Hin |]. split; [exact Hub |].
  unfold severity_score in Hmax |- *. rewrite Hmax. f_equal. f_equal.
  f_equal. lia.
Qed.

(** X16.  The compliance sub-score is 0 for a result without violations;
    otherwise it is [min(100, s + min(5 * count, 25))], where [s] is the
    greatest severity score among the violations, and it lies between 10
    and 100. *)
Theorem score_compliance_spec (result : PolicyEngine.ComplianceResult) :
  let vs := PolicyEngine.violations result in
  match vs with
  | [] => _score_compliance result = 0
  | _ =>
      exists worst,
        worst ∈ vs
        /\ (forall v, v ∈ vs ->
              severity_score (PolicyEngine.severity_value
                                (PolicyEngine.violation_severity v))
              <= severity_score (PolicyEngine.severity_value
                                   (PolicyEngine.violation_severity worst)))
        /\ _score_compliance result
           = Z.min 100
               (severity_score (PolicyEngine.severity_value
                                  (PolicyEngine.violation_severity worst))
                + Z.min (5 * Z.of_nat (length vs)) 25)
        /\ 10 <= _score_compliance result <= 100
  end.
Proof.
  intros vs. subst vs.
  destruct (PolicyEngine.violations result) as [|y l] eqn:E.
  { unfold _score_compliance. by rewrite E. }
  destruct (score_compliance_worst result y l E) as (worst & Hin & Hub & Hs).
  exists worst. split; [exact Hin |]. split; [exact Hub |].
  split; [exact Hs |]. rewrite Hs.
  pose proof (policy_severity_score (PolicyEngine.violation_severity worst))
    as Hw.
  remember (severity_score _) as s eqn:Es. clear Es.
  assert (5 <= s <= 95) by (set_solver by lia).
  cbn [length]. lia.
Qed.

Lemma max_weighted_ge fs : forall m z, max_weighted m fs = Ok z -> m <= z.
Proof.
  induction fs as [|f fs IH]; cbn; intros m z H; [injection H; lia |].
  apply bind_Ok in H as (p & _ & H). apply bind_Ok in H as (w & _ & H).
  apply IH in H. lia.
Qed.

Lemma score_anomalies_bounds (report : Anomaly.AnomalyReport) (a : Z) :
  _score_anomalies report = Ok a -> 0 <= a <= 100.
Proof.
  unfold _score_anomalies.
  destruct (Anomaly.findings report) as [|f fs]; [intros [= <-]; lia |].
  intros H. apply bind_Ok in H as (m & Hm & H). injection H as <-.
  apply max_weighted_ge in Hm. cbn [length]. lia.
Qed.

(** X17.  When [_score_anomalies] returns, the sub-score lies between 0
    and 100, whatever the confidences are (also negative ones or ones
    above 1); it is 0 for a report without findings, and at least
    [min(5 * count, 20)] otherwise. *)
Theorem score_anomalies_range (report : Anomaly.AnomalyReport) (a : Z) :
  _score_anomalies report = Ok a ->
  0 <= a <= 100
  /\ (Anomaly.findings report = [] -> a = 0)
  /\ Z.min 100 (Z.min (5 * Z.of_nat (length (Anomaly.findings report))) 20)
     <= a.
Proof.
  intros H. split; [by eapply score_anomalies_bounds |].
  unfold _score_anomalies in H.
  destruct (Anomaly.findings report) as [|f fs];
    [injection H as <-; split; [done | cbn; lia] |].
  apply bind_Ok in H as (m & Hm & H). injection H as <-.
  apply max_weighted_ge in Hm. split; [discriminate | cbn [length]; lia].
Qed.

Lemma score_anomalies_range_witness :
  let finding :=
    {| Anomaly.category := "Resource Usage"; Anomaly.severity := "medium";
       Anomaly.title := "High Gas Usage"; Anomaly.description := "";
       Anomaly.confidence := 0.8%float; Anomaly.evidence := [];
       Anomaly.recommendations := [] |} in
  let report :=
    {| Anomaly.analysis_type := "transaction"; Anomaly.target := "0x1";
       Anomaly.findings := [finding]; Anomaly.summary := "";
       Anomaly.risk_assessment := "" |} in
  _score_anomalies report = Ok 33 /\ 0 <= 33 <= 100.
Proof.
  intros finding report.
  assert (H : _score_anomalies report = Ok 33) by (vm_compute; reflexivity).
  split; [exact H | exact (proj1 (score_anomalies_range report 33 H))].
Defined.

Lemma single_category_inv k c z :
  single_category_score k c = Ok z ->
  exists ts tw f,
    accumulate (0%float, 0%float) k true c = Ok (ts, tw)
    /\ (if PrimFloat.ltb 0%float tw
        then int_of_float (PrimFloat.div ts tw) else Ok 0) = Ok f
    /\ z = Z.max 0 (Z.min 100 f).
Proof.
  unfold single_category_score. intros H.
  apply bind_Ok in H as ([ts tw] & Ha & H).
  apply bind_Ok in H as (f & Hf & H). injection H as <-.
  exists ts, tw, f. auto.
Qed.

Lemma compliance_alone_exact k :
  0 <= k <= 20 -> single_category_score "compliance" (5 * k) = Ok (5 * k).
Proof.
  intros Hk.
  assert (H : forallb
                (fun k => match single_category_score "compliance" (5 * k) with
                          | Ok z => z =? 5 * k
                          | Raise _ => false
                          end) (seqZ 0 21) = true)
    by (vm_compute; reflexivity).
  rewrite forallb_forall in H. specialize (H k).
  destruct (single_category_score "compliance" (5 * k)) as [z|].
  - f_equal. apply Z.eqb_eq, H. apply list_elem_of_In, elem_of_seqZ. lia.
  - discriminate H. apply list_elem_of_In, elem_of_seqZ. lia.
Qed.

Lemma anomaly_alone_exact a :
  0 <= a <= 100 -> single_category_score "anomaly" a = Ok a.
Proof.
  intros Ha.
  assert (H : forallb
                (fun a => match single_category_score "anomaly" a with
                          | Ok z => z =? a
                          | Raise _ => false
                          end) (seqZ 0 101) = true)
    by (vm_compute; reflexivity).
  rewrite forallb_forall in H. specialize (H a).
  destruct (single_category_score "anomaly" a) as [z|].
  - f_equal. apply Z.eqb_eq, H. apply list_elem_of_In, elem_of_seqZ. lia.
  - discriminate H. apply list_elem_of_In, elem_of_seqZ. lia.
Qed.

Lemma score_compliance_multiple (r : PolicyEngine.ComplianceResult) :
  exists k,
    0 <= k <= 20 /\ _score_compliance r = 5 * k
    /\ (PolicyEngine.violations r = [] -> k = 0)
    /\ (PolicyEngine.violations r <> [] -> 2 <= k).
Proof.
  destruct (PolicyEngine.violations r) as [|y l] eqn:E.
  - exists 0. unfold _score_compliance. rewrite E.
    split; [lia |]. split; [reflexivity |]. split; [done | done].
  - destruct (score_compliance_worst r y l E) as (worst & _ & _ & ->).
    pose proof (policy_severity_score
                  (PolicyEngine.violation_severity worst)) as Hs.
    remember (severity_score _) as s eqn:Es. clear Es.
    remember (Z.of_nat (length (y :: l))) as n eqn:En.
    assert (Hn : 1 <= n) by (subst n; cbn [length]; lia). clear En.
    assert (Hb : Z.min (5 * n) 25 ∈ [5; 10; 15; 20; 25]).
    { destruct (decide (n = 1)) as [->|]; [set_solver |].
      destruct (decide (n = 2)) as [->|]; [set_solver |].
      destruct (decide (n = 3)) as [->|]; [set_solver |].
      destruct (decide (n = 4)) as [->|]; [set_solver |].
      replace (Z.min (5 * n) 25) with 25 by lia. set_solver. }
    exists (Z.min 100 (s + Z.min (5 * n) 25) / 5).
    revert Hs Hb. generalize (Z.min (5 * n) 25) as b. intros b Hs Hb.
    repeat (apply elem_of_cons in Hs as [->|Hs]); [| | | | | inversion Hs];
      repeat (apply elem_of_cons in Hb as [->|Hb]); try (inversion Hb; fail);
      vm_compute;
      (split; [split; discriminate |]); (split; [reflexivity |]);
      (split; [discriminate | intros _; discriminate]).
Qed.

Lemma accumulate_absent acc k s : accumulate acc k false s = Ok acc.
Proof. reflexivity. Qed.

(** X18.  With a compliance result alone, as the alert handler calls it,
    [calculate_risk_score] always returns, and the score is the
    compliance sub-score itself: every value that
    sub-score takes survives the float division.  So the score is 0
    exactly when there is no violation, and at least 10 otherwise. *)
Theorem compliance_only_score (r : PolicyEngine.ComplianceResult) :
  exists rs,
    calculate_risk_score (Some r) None None = Ok rs
    /\ score rs = _score_compliance r
    /\ breakdown rs = [("compliance"%string, _score_compliance r)]
    /\ (PolicyEngine.violations r = [] <-> score rs = 0)
    /\ (PolicyEngine.violations r <> [] -> 10 <= score rs).
Proof.
  destruct (score_compliance_multiple r) as (k & Hk & Hc & H0 & H2).
  pose proof (compliance_alone_exact k Hk) as Hs. rewrite <- Hc in Hs.
  apply single_category_inv in Hs as (ts & tw & f & Ha & Hf & Hz).
  unfold calculate_risk_score.
  destruct (PolicyEngine.violations r) as [|y l] eqn:E; cbn;
    rewrite Ha; cbn; repeat (rewrite accumulate_absent; cbn); rewrite Hf;
    cbn; eexists;
    (split; [reflexivity |]); cbn; rewrite <- Hz;
    (split; [reflexivity |]); (split; [reflexivity |]).
  - rewrite Hc, (H0 eq_refl). split; [done | done].
  - specialize (H2 ltac:(discriminate)).
    split; [split; [discriminate | lia] | lia].
Qed.

(** X19.  With an anomaly report alone, [calculate_risk_score] returns
    exactly when [_score_anomalies] does, with the same exception
    otherwise, and the score is the anomaly sub-score itself: the division
    by the weight 0.25 loses nothing. *)
Theorem anomaly_only_score (report : Anomaly.AnomalyReport) :
  match _score_anomalies report with
  | Ok a =>
      exists rs,
        calculate_risk_score None None (Some report) = Ok rs
        /\ score rs = a
        /\ breakdown rs = [("anomaly"%string, a)]
  | Raise e => calculate_risk_score None None (Some report) = Raise e
  end.
Proof.
  unfold calculate_risk_score.
  destruct (_score_anomalies report) as [a|e] eqn:E; [| reflexivity].
  pose proof (score_anomalies_bounds report a E) as Hr.
  pose proof (anomaly_alone_exact a Hr) as Hs.
  apply single_category_inv in Hs as (ts & tw & f & Ha & Hf & Hz).
  cbn. repeat (rewrite accumulate_absent; cbn). rewrite Ha. cbn.
  rewrite Hf. cbn. eexists.
  split; [reflexivity |]. cbn. rewrite <- Hz. split; reflexivity.
Qed.


Lemma existsb_eqb_elem (x : string) (l : list string) :
  existsb (String.eqb x) l = true <-> x ∈ l.
Proof.
  rewrite existsb_exists. split.
  - intros (y & Hy%list_elem_of_In & ->%String.eqb_eq). exact Hy.
  - intros H. exists x. split; [by apply list_elem_of_In | apply String.eqb_refl].
Qed.

Lemma fromkeys_elem seen l x :
  x ∈ fromkeys seen l <-> x ∈ l /\ x ∉ seen.
Proof.
  revert seen. induction l as [|y l IH]; intros seen; cbn.
  - split; [intros H; inversion H | intros [H _]; inversion H].
  - destruct (existsb (String.eqb y) seen) eqn:E.
    + apply existsb_eqb_elem in E. rewrite IH, elem_of_cons.
      split; [tauto |]. intros [[-> | H] Hn]; [done | tauto].
    + assert (Hy : y ∉ seen).
      { intros H%existsb_eqb_elem. congruence. }
      rewrite !elem_of_cons, IH, not_elem_of_cons.
      split.
      * intros [-> | [H [Hne Hn]]]; tauto.
      * intros [[-> | H] Hn]; [by left |].
        destruct (decide (x = y)) as [->|]; [by left | right; tauto].
Qed.

Lemma fromkeys_NoDup seen l : NoDup (fromkeys seen l).
Proof.
  revert seen. induction l as [|y l IH]; intros seen; cbn; [constructor |].
  destruct (existsb (String.eqb y) seen); [apply IH |].
  constructor; [| apply IH].
  rewrite fromkeys_elem, not_elem_of_cons. tauto.
Qed.

End RiskScorerMore.

Section NanConfidence.
Import RiskScorer.

#[local] Arguments _score_compliance : simpl never.
#[local] Arguments _score_vulnerabilities : simpl never.
#[local] Arguments _score_anomalies : simpl never.

Lemma mul_nan (f c : float) :
  Prim2SF c = S754_nan -> Prim2SF (PrimFloat.mul f c) = S754_nan.
Proof. intros H. rewrite mul_spec, H. by destruct (Prim2SF f). Qed.

Lemma float_of_severity_score (label : string) :
  exists f, float_of_int (get SEVERITY_SCORES label 0) = Ok f.
Proof.
  unfold get, SEVERITY_SCORES; cbn.
  repeat match goal with
         | |- context [String.eqb ?a ?b] => destruct (String.eqb a b)
         end; cbn; eexists; vm_compute; reflexivity.
Qed.

Lemma max_weighted_nan fs finding :
  finding ∈ fs ->
  Prim2SF (Anomaly.confidence finding) = S754_nan ->
  forall m, exists e, max_weighted m fs = Raise e.
Proof.
  intros Hin Hnan. induction fs as [|f fs IH]; [inversion Hin |].
  intros m. cbn [max_weighted].
  apply elem_of_cons in Hin as [<- | Hin].
  - destruct (float_of_severity_score (Anomaly.severity finding)) as [x Hx].
    unfold int_mul_float. rewrite Hx. cbn.
    unfold int_of_float. rewrite (mul_nan x _ Hnan). cbn. eauto.
  - destruct (int_mul_float _ (Anomaly.confidence f)) as [p|]; cbn; [| eauto].
    destruct (int_of_float p) as [w|]; cbn; [| eauto].
    by apply IH.
Qed.

(** X20.  One finding whose confidence is [nan] makes [_score_anomalies]
    raise, and with it every call of [calculate_risk_score] that is given
    the report. *)
Theorem nan_confidence_raises
    (report : Anomaly.AnomalyReport) (finding : Anomaly.AnomalyFinding) :
  finding ∈ Anomaly.findings report ->
  Prim2SF (Anomaly.confidence finding) = S754_nan ->
  (exists e, _score_anomalies report = Raise e)
  /\ forall cr vr,
       exists e, calculate_risk_score cr vr (Some report) = Raise e.
Proof.
  intros Hin Hnan.
  assert (He : exists e, _score_anomalies report = Raise e).
  { unfold _score_anomalies.
    destruct (Anomaly.findings report) as [|f fs] eqn:E; [inversion Hin |].
    destruct (max_weighted_nan (f :: fs) finding Hin Hnan 0) as [e ->].
    cbn. eauto. }
  split; [exact He |]. destruct He as [e He].
  intros cr vr. exists e. unfold calculate_risk_score.
  destruct cr as [cr|]; [destruct (PolicyEngine.violations cr) |];
    (destruct vr as [vr|]; [destruct (Vulnerability.vulnerabilities vr) |]);
    cbn; rewrite He; reflexivity.
Qed.

Lemma nan_confidence_raises_witness :
  let finding :=
    {| Anomaly.category := "Unknown"; Anomaly.severity := "high";
       Anomaly.title := "Untitled Finding"; Anomaly.description := "";
       Anomaly.confidence := nan; Anomaly.evidence := [];
       Anomaly.recommendations := [] |} in
  let report :=
    {| Anomaly.analysis_type := "transaction"; Anomaly.target := "0x1";
       Anomaly.findings := [finding]; Anomaly.summary := "";
       Anomaly.risk_assessment := "" |} in
  exists e, calculate_risk_score None None (Some report) = Raise e.
Proof.
  intros finding report.
  apply (proj2 (nan_confidence_raises report finding
                  ltac:(left) ltac:(reflexivity))).
Defined.

End NanConfidence.

Section RiskScoreShape.
Import RiskScorer.

#[local] Arguments _score_compliance : simpl never.
#[local] Arguments _score_vulnerabilities : simpl never.
#[local] Arguments _score_anomalies : simpl never.
#[local] Arguments fromkeys : simpl never.
#[local] Arguments take : simpl never.

(** Takes a call that returned [rs] apart, into the fields of [rs]. *)
Ltac fields_of H cr vr ar :=
  unfold calculate_risk_score in H;
  destruct cr as [cr|];
    [destruct (PolicyEngine.violations cr) as [|? ?] eqn:? |];
  (destruct vr as [vr|];
     [destruct (Vulnerability.vulnerabilities vr) as [|? ?] eqn:? |]);
  (destruct ar as [ar|];
     [destruct (_score_anomalies ar) as [?|?] eqn:?; [| discriminate H] |]);
  cbn in H;
  repeat (apply bind_Ok in H as (? & ? & H));
  try match type of H with
      | (let '(_, _) := ?totals in _) = _ => destruct totals
      end;
  try apply bind_Ok in H as (? & ? & H);
  inversion H; subst; clear H; cbn.

(** X21.  A returned score lies between 0 and 100, its level is the one
    [_score_to_level] gives the score, there are at most 10 factors and
    at most 5 recommendations, and no recommendation occurs twice. *)
Theorem risk_score_well_formed cr vr ar rs :
  calculate_risk_score cr vr ar = Ok rs ->
  0 <= score rs <= 100
  /\ level rs = _score_to_level (score rs)
  /\ (length (factors rs) <= 10)%nat
  /\ (length (recommendations rs) <= 5)%nat
  /\ NoDup (recommendations rs).
Proof.
  intros H. fields_of H cr vr ar;
    (split; [lia |]); (split; [reflexivity |]);
    (split; [rewrite ?length_take; cbn [length]; lia |]);
    (split; [rewrite ?length_take; cbn [length]; lia |]);
    (eapply sublist_NoDup; [apply fromkeys_NoDup | apply sublist_take]).
Qed.


Lemma risk_score_well_formed_witness :
  exists rs,
    calculate_risk_score None
      (Some (Vulnerability.report
               [vuln "high" "Unchecked transfer"; vuln "critical" "No signer"]))
      None = Ok rs
    /\ recommendations rs
       = ["Address critical vulnerabilities immediately";
          "Review and fix high-severity issues"]%string
    /\ NoDup (recommendations rs).
Proof.
  assert (H : exists rs,
             calculate_risk_score None
               (Some (Vulnerability.report
                        [vuln "high" "Unchecked transfer";
                         vuln "critical" "No signer"])) None = Ok rs
             /\ recommendations rs
                = ["Address critical vulnerabilities immediately";
                   "Review and fix high-severity issues"]%string).
  { eexists. split; vm_compute; reflexivity. }
  destruct H as (rs & H & Hr). exists rs. split; [exact H |].
  split; [exact Hr |].
  exact (proj2 (proj2 (proj2 (proj2 (risk_score_well_formed _ _ _ _ H))))).
Defined.

End RiskScoreShape.

(** ** Transaction monitor, continued *)

Section TransactionMonitorMore.
Import TransactionMonitor.

Variable fromtimestamp_error : Z -> option exn.

Abbreviation _parse_transaction :=
  (TransactionMonitor._parse_transaction fromtimestamp_error).
Abbreviation poll_loop := (TransactionMonitor.poll_loop fromtimestamp_error).
Abbreviation step := (TransactionMonitor.step fromtimestamp_error).

Lemma deque_append_last {A : Type} (l : list A) (x : A) :
  deque_append 100 (drop (length l - 100) l) x
  = drop (length (l ++ [x]) - 100) (l ++ [x]).
Proof.
  unfold deque_append. rewrite !length_app, length_drop. cbn [length].
  destruct (decide (length l < 100)%nat) as [Hlt|Hge].
  - replace (length l - 100)%nat with 0%nat by lia. cbn [drop].
    replace (length l - 0 + 1 - 100)%nat with 0%nat by lia.
    replace (length l + 1 - 100)%nat with 0%nat by lia. reflexivity.
  - replace (length l - (length l - 100) + 1 - 100)%nat with 1%nat by lia.
    rewrite <- drop_app_le by lia. rewrite drop_drop. f_equal. lia.
Qed.

Lemma buffer_ok_poll_loop transactions :
  forall self, buffer_ok self -> buffer_ok (poll_loop self transactions).
Proof.
  induction transactions as [|tx_data rest IH]; intros self Hok; cbn;
    [exact Hok |].
  destruct (int (get tx_data "version" (VInt 0))) as [v|]; [| exact Hok].
  destruct (_ <? v); [| by apply IH].
  destruct (_parse_transaction tx_data) as [event|]; [| by apply IH].
  destruct (_should_process _ event) as [[|]|]; [| by apply IH | exact Hok].
  apply IH. unfold buffer_ok in *; cbn in *. rewrite Hok.
  apply deque_append_last.
Qed.

Lemma buffer_ok_step self c : buffer_ok self -> buffer_ok (step self c).
Proof.
  destruct c as [[transactions|e]|a|a]; cbn; intros H;
    [by apply buffer_ok_poll_loop | exact H | exact H | exact H].
Qed.

(** X22.  After any run of the monitor loop on a fresh monitor, the
    buffer of recent transactions holds the last 100 events handed to the
    callbacks (all of them when there are fewer), in the order they were
    handed over. *)
Theorem recent_transactions_are_last_notified
    (ledger_info : result dict) (calls : list call) :
  let self := _monitor_loop fromtimestamp_error __init__ ledger_info calls in
  _recent_transactions self
  = drop (length (notified self) - 100) (notified self)
  /\ (length (_recent_transactions self) <= 100)%nat.
Proof.
  intros self.
  assert (Hok : buffer_ok self).
  { subst self. unfold _monitor_loop.
    assert (H0 : buffer_ok (seed __init__ ledger_info)) by reflexivity.
    revert H0. generalize (seed __init__ ledger_info).
    induction calls as [|c calls IH]; intros m Hm; cbn; [exact Hm |].
    apply IH, buffer_ok_step, Hm. }
  split; [exact Hok |]. rewrite Hok, length_drop. lia.
Qed.


(** X23.  A page of records whose versions all coerce and none of which
    exceeds the last-seen version leaves the monitor as it is: nothing is
    parsed, buffered or notified. *)
Theorem stale_page_ignored (self : monitor) (transactions : list dict) :
  Forall (fun tx_data =>
            exists v, int (get tx_data "version" (VInt 0)) = Ok v
                      /\ v <= default 0 (_last_version self)) transactions ->
  poll_loop self transactions = self.
Proof.
  induction 1 as [|tx_data rest (v & Hv & Hle) _ IH]; cbn; [reflexivity |].
  rewrite Hv. destruct (Z.ltb_spec (default 0 (_last_version self)) v);
    [lia | exact IH].
Qed.

Lemma poll_loop_last_version transactions :
  forall self,
    default 0 (_last_version self)
    <= default 0 (_last_version (poll_loop self transactions))
    /\ _monitored_addresses (poll_loop self transactions)
       = _monitored_addresses self.
Proof.
  induction transactions as [|tx_data rest IH]; intros self; cbn;
    [split; [lia | reflexivity] |].
  destruct (int (get tx_data "version" (VInt 0))) as [v|];
    [| split; [lia | reflexivity]].
  destruct (Z.ltb_spec (default 0 (_last_version self)) v); [| apply IH].
  destruct (_parse_transaction tx_data) as [event|].
  2:{ destruct (IH (set_last_version self v)) as [H1 H2]. cbn in *.
      split; [lia | exact H2]. }
  destruct (_should_process _ event) as [[|]|].
  - match goal with
    | |- context [poll_loop ?m rest] => destruct (IH m) as [H1 H2]
    end. cbn in *. split; [lia | exact H2].
  - destruct (IH (set_last_version self v)) as [H1 H2]. cbn in *.
    split; [lia | exact H2].
  - cbn. split; [lia | reflexivity].
Qed.

(** X24.  During a run of the monitor loop the last-seen version never
    falls below the seeded one, and it is at least the version of every
    event handed to the callbacks. *)
Theorem last_version_never_decreases
    (self : monitor) (ledger_info : result dict) (calls : list call) :
  notified self = [] ->
  let seeded := seed self ledger_info in
  let self' := foldl step seeded calls in
  default 0 (_last_version seeded) <= default 0 (_last_version self')
  /\ Forall (fun v => v <= default 0 (_last_version self'))
       (notified_versions self').
Proof.
  intros Hfresh seeded self'. split.
  - subst self'. generalize seeded. clear seeded.
    induction calls as [|c calls IH]; intros m; cbn; [lia |].
    etrans; [| apply IH].
    destruct c as [[transactions|e]|a|a]; cbn; try lia.
    apply poll_loop_last_version.
  - assert (Hord : ordered self').
    { apply ordered_foldl_step. unfold ordered, notified_versions; cbn.
      rewrite Hfresh. split; constructor. }
    apply Hord.
Qed.


Lemma lower_ascii_idemp c : lower_ascii (lower_ascii c) = lower_ascii c.
Proof. destruct c as [[] [] [] [] [] [] [] []]; reflexivity. Qed.

Lemma lower_idemp s : lower (lower s) = lower s.
Proof.
  unfold lower. induction s as [|c s IH]; [reflexivity |].
  cbn [str_map]. by rewrite lower_ascii_idemp, IH.
Qed.

Lemma startswith_0x_lower a :
  startswith a "0x" = true -> startswith (lower a) "0x" = true.
Proof.
  unfold startswith.
  destruct a as [|c1 [|c2 r]]; [done | |].
  - cbn [String.prefix]. by destruct (ascii_dec "0" c1).
  - cbn [String.prefix].
    destruct (ascii_dec "0" c1) as [<-|]; [| done].
    destruct (ascii_dec "x" c2) as [<-|]; [| done]. intros _.
    unfold lower. cbn [str_map].
    change (lower_ascii "0") with "0"%char.
    change (lower_ascii "x") with "x"%char.
    cbn [String.prefix].
    destruct (ascii_dec "0" "0"); [| done].
    destruct (ascii_dec "x" "x"); [| done].
    by destruct (str_map lower_ascii r).
Qed.

Lemma startswith_0x_app a : startswith ("0x" +:+ a) "0x" = true.
Proof.
  unfold startswith. cbn [String.app String.prefix].
  destruct (ascii_dec "0" "0"); [| done].
  destruct (ascii_dec "x" "x"); [| done].
  by destruct a.
Qed.

Lemma with_0x_normalised a : normalised (lower (with_0x a)).
Proof.
  split; [apply lower_idemp |].
  apply startswith_0x_lower. unfold with_0x.
  destruct (startswith a "0x") eqn:E; [exact E | apply startswith_0x_app].
Qed.

Lemma addresses_ok_step self c : addresses_ok self -> addresses_ok (step self c).
Proof.
  intros Hok. destruct c as [[transactions|e]|a|a]; cbn; try exact Hok.
  - unfold addresses_ok.
    by rewrite (proj2 (poll_loop_last_version transactions self)).
  - intros b. cbn. rewrite elem_of_union, elem_of_singleton.
    intros [-> | Hb]; [apply with_0x_normalised | by apply Hok].
  - intros b. cbn. rewrite elem_of_difference. intros [Hb _]. by apply Hok.
Qed.

(** X25.  If the monitored addresses are lower-case and start with
    ["0x"] when the loop starts, they are so after any run: every address
    that [add_monitored_address] stores is normalised. *)
Theorem monitored_addresses_normalised
    (self : monitor) (ledger_info : result dict) (calls : list call) :
  (forall a, a ∈ _monitored_addresses self -> normalised a) ->
  forall a,
    a ∈ _monitored_addresses
          (_monitor_loop fromtimestamp_error self ledger_info calls) ->
    normalised a.
Proof.
  intros Hok. unfold _monitor_loop.
  assert (H0 : addresses_ok (seed self ledger_info)) by exact Hok.
  revert H0. generalize (seed self ledger_info).
  induction calls as [|c calls IH]; intros m Hm; cbn; [exact Hm |].
  apply IH, addresses_ok_step, Hm.
Qed.

(** X26.  With a non-empty set of normalised monitored addresses, an
    event whose sender does not start with ["0x"] (in either case of the
    x) is rejected: the sender is lower-cased but not prefixed before the
    lookup. *)
Theorem unprefixed_sender_rejected (self : monitor) (event : TransactionEvent)
    (s : string) :
  (forall a, a ∈ _monitored_addresses self -> normalised a) ->
  _monitored_addresses self <> ∅ ->
  sender event = VStr s ->
  startswith (lower s) "0x" = false ->
  _should_process self event = Ok false.
Proof.
  intros Hok Hne Hs Hp. rewrite (should_process_str self event s Hs).
  f_equal. apply bool_decide_eq_false_2. intros [He | Hin]; [done |].
  destruct (Hok _ Hin) as [_ H]. congruence.
Qed.

Lemma should_process_addresses self self' event :
  _monitored_addresses self' = _monitored_addresses self ->
  _should_process self' event = _should_process self event.
Proof. unfold _should_process. by intros ->. Qed.

Lemma poll_loop_notified transactions :
  forall self,
    exists new,
      notified (poll_loop self transactions) = notified self ++ new
      /\ Forall (fun event =>
                   _should_process self event = Ok true
                   /\ default 0 (_last_version self) < version event
                   /\ exists tx_data,
                        tx_data ∈ transactions
                        /\ _parse_transaction tx_data = Some event) new.
Proof.
  induction transactions as [|tx_data rest IH]; intros self; cbn.
  { exists []. by rewrite app_nil_r. }
  assert (Hweak : forall m,
             _monitored_addresses m = _monitored_addresses self ->
             default 0 (_last_version self) <= default 0 (_last_version m) ->
             forall new,
               Forall (fun event =>
                   _should_process m event = Ok true
                   /\ default 0 (_last_version m) < version event
                   /\ exists tx, tx ∈ rest /\ _parse_transaction tx = Some event)
                 new ->
               Forall (fun event =>
                   _should_process self event = Ok true
                   /\ default 0 (_last_version self) < version event
                   /\ exists tx, tx ∈ tx_data :: rest
                                 /\ _parse_transaction tx = Some event) new).
  { intros m Hm Hl new H. eapply Forall_impl; [exact H |]. cbn.
    intros ev (H1 & H2 & tx & Htx & Hp).
    rewrite (should_process_addresses self m ev Hm) in H1.
    split; [exact H1 |]. split; [lia |].
    exists tx. split; [by right | exact Hp]. }
  destruct (int (get tx_data "version" (VInt 0))) as [v|] eqn:Hv.
  2:{ exists []. by rewrite app_nil_r. }
  destruct (Z.ltb_spec (default 0 (_last_version self)) v) as [Hlt|Hge].
  2:{ destruct (IH self) as (new & Hn & Hall). exists new.
      split; [exact Hn |]. by apply (Hweak self). }
  destruct (_parse_transaction tx_data) as [event|] eqn:Hp.
  2:{ destruct (IH (set_last_version self v)) as (new & Hn & Hall).
      exists new. split; [exact Hn |].
      apply (Hweak (set_last_version self v)); [done | cbn; lia | exact Hall]. }
  pose proof (parse_transaction_version fromtimestamp_error _ _ Hp) as Hpv.
  rewrite Hv in Hpv. injection Hpv as ->.
  destruct (_should_process _ event) as [[|]|] eqn:Hs.
  - match goal with
    | |- context [poll_loop ?m rest] =>
        destruct (IH m) as (new & Hn & Hall);
        pose proof (Hweak m eq_refl ltac:(cbn; lia) new Hall) as Hall'
    end.
    exists (event :: new). cbn in Hn. rewrite Hn, <- app_assoc. cbn.
    split; [reflexivity |]. constructor; [| exact Hall'].
    split; [exact Hs |]. split; [exact Hlt |].
    exists tx_data. split; [left | exact Hp].
  - destruct (IH (set_last_version self (version event))) as (new & Hn & Hall).
    exists new. split; [exact Hn |].
    apply (Hweak (set_last_version self (version event)));
      [done | cbn; lia | exact Hall].
  - exists []. cbn. by rewrite app_nil_r.
Qed.

(** X27.  A poll iteration only appends to the notified events, leaves
    the monitored addresses alone, and every event it notifies was
    accepted by [_should_process], is the parse of a record of the reply
    and has a version above the last-seen version of the start. *)
Theorem poll_notifies_only_accepted_events
    (self : monitor) (reply : result (list dict)) :
  exists new,
    notified (TransactionMonitor._poll_transactions fromtimestamp_error self reply)
    = notified self ++ new
    /\ Forall (fun event =>
                 _should_process self event = Ok true
                 /\ default 0 (_last_version self) < version event
                 /\ exists tx_data transactions,
                      reply = Ok transactions
                      /\ tx_data ∈ transactions
                      /\ _parse_transaction tx_data = Some event) new
    /\ _monitored_addresses
         (TransactionMonitor._poll_transactions fromtimestamp_error self reply)
       = _monitored_addresses self.
Proof.
  destruct reply as [transactions|e]; cbn.
  - destruct (poll_loop_notified transactions self) as (new & Hn & Hall).
    exists new. split; [exact Hn |]. split.
    + eapply Forall_impl; [exact Hall |]. cbn.
      intros ev (H1 & H2 & tx & Htx & Hp). eauto 10.
    + apply poll_loop_last_version.
  - exists []. rewrite app_nil_r. by repeat split.
Qed.


Lemma parse_timestamp_cases tx_data :
  match parse_timestamp fromtimestamp_error tx_data with
  | Ok Now => True
  | Ok (FromTimestamp z) =>
      int (get tx_data "timestamp" (VStr "0")) = Ok z
      /\ fromtimestamp_error z = None
  | Raise e =>
      exists z,
        int (get tx_data "timestamp" (VStr "0")) = Ok z
        /\ fromtimestamp_error z = Some e
        /\ e <> ValueError /\ e <> TypeError
  end.
Proof.
  unfold parse_timestamp.
  destruct (int (get tx_data "timestamp" (VStr "0"))) as [z|e] eqn:Hz; cbn.
  - destruct (fromtimestamp_error z) as [e|] eqn:He; [| done].
    destruct e; try done; exists z; repeat split; done.
  - destruct (get tx_data "timestamp" (VStr "0")) as [| | |s| |];
      cbn in Hz; try (injection Hz as <-; done); try discriminate.
    destruct (int_of_str s); [discriminate | injection Hz as <-; done].
Qed.

(** X28.  [_parse_transaction] fails only when the version or the gas
    used does not coerce or the timestamp conversion raises something
    other than [ValueError] and [TypeError]; a missing key never makes it
    fail.  When it succeeds the event carries the coerced version and gas
    and, for every other field, the value of the record or the default of
    the source; the timestamp is the converted one or the current time. *)
Theorem parse_transaction_spec (tx_data : dict) :
  match _parse_transaction tx_data with
  | Some event =>
      int (get tx_data "version" (VInt 0)) = Ok (version event)
      /\ int (get tx_data "gas_used" (VInt 0)) = Ok (gas_used event)
      /\ hash event = get tx_data "hash" (VStr "")
      /\ sender event = get tx_data "sender" (VStr "")
      /\ type event = get tx_data "type" (VStr "unknown")
      /\ success event = get tx_data "success" (VBool false)
      /\ payload event = get tx_data "payload" (VDict [])
      /\ changes event = get tx_data "changes" (VList [])
      /\ raw event = tx_data
      /\ match timestamp event with
         | Now => True
         | FromTimestamp z =>
             int (get tx_data "timestamp" (VStr "0")) = Ok z
             /\ fromtimestamp_error z = None
         end
  | None =>
      (exists e, int (get tx_data "version" (VInt 0)) = Raise e)
      \/ (exists e, int (get tx_data "gas_used" (VInt 0)) = Raise e)
      \/ (exists z e,
            int (get tx_data "timestamp" (VStr "0")) = Ok z
            /\ fromtimestamp_error z = Some e
            /\ e <> ValueError /\ e <> TypeError)
  end.
Proof.
  pose proof (parse_timestamp_cases tx_data) as Ht.
  unfold TransactionMonitor._parse_transaction.
  destruct (parse_timestamp fromtimestamp_error tx_data) as [ts|e]; cbn.
  - destruct (int (get tx_data "version" (VInt 0))) as [v|]; cbn; [| eauto].
    destruct (int (get tx_data "gas_used" (VInt 0))) as [g|]; cbn; [| eauto].
    repeat split. exact Ht.
  - destruct Ht as (z & ?). right; right. eauto.
Qed.

Lemma parse_transaction_raw tx_data event :
  _parse_transaction tx_data = Some event -> raw event = tx_data.
Proof.
  unfold TransactionMonitor._parse_transaction.
  destruct (parse_timestamp fromtimestamp_error tx_data); cbn; [| done].
  destruct (int (get tx_data "version" (VInt 0))); cbn; [| done].
  destruct (int (get tx_data "gas_used" (VInt 0))); cbn; [| done].
  by intros [= <-].
Qed.

(** X29.  [get_address_transactions] returns one event per record that
    parses, in the order of the reply, each carrying its record as [raw];
    records that do not parse are dropped. *)
Theorem get_address_transactions_keeps_parsable (transactions : list dict) :
  raw <$> get_address_transactions fromtimestamp_error transactions
  = List.filter (fun tx_data => bool_decide (is_Some (_parse_transaction tx_data)))
      transactions.
Proof.
  unfold get_address_transactions.
  induction transactions as [|tx_data rest IH]; [reflexivity |].
  cbn. destruct (_parse_transaction tx_data) as [event|] eqn:Hp; cbn.
  - rewrite (parse_transaction_raw _ _ Hp). by rewrite IH.
  - exact IH.
Qed.

End TransactionMonitorMore.

Section TransactionMonitorMoreExamples.
Import TransactionMonitor.

Lemma stale_page_ignored_witness :
  let self := seed __init__ (Ok [("ledger_version", VStr "20")]) in
  poll_loop year_range_error self
    [user_transaction "19" "0xab" []; user_transaction "20" "0xab" []]
  = self.
Proof.
  intros self. apply stale_page_ignored. subst self.
  constructor; [exists 19; split; [reflexivity | by vm_compute] |].
  constructor; [exists 20; split; [reflexivity | by vm_compute] | constructor].
Defined.

Lemma last_version_never_decreases_witness :
  let self' :=
    foldl (step year_range_error)
      (seed __init__ (Ok [("ledger_version", VStr "20")]))
      [Poll (Ok [user_transaction "25" "0xab" [];
                 user_transaction "22" "0xab" []])] in
  20 <= default 0 (_last_version self')
  /\ _last_version self' = Some 25.
Proof.
  intros self'. split; [| reflexivity].
  exact (proj1 (last_version_never_decreases year_range_error __init__
                  (Ok [("ledger_version", VStr "20")])
                  [Poll (Ok [user_transaction "25" "0xab" [];
                             user_transaction "22" "0xab" []])] eq_refl)).
Defined.

Lemma monitored_addresses_normalised_witness :
  let self :=
    _monitor_loop year_range_error __init__ (Raise OSError)
      [AddAddress "AbC"; AddAddress "0xDEF"] in
  normalised "0xabc" /\ normalised "0xdef".
Proof.
  intros self.
  split;
    apply (monitored_addresses_normalised year_range_error __init__
             (Raise OSError) [AddAddress "AbC"; AddAddress "0xDEF"]);
    try (intros a Ha; cbn in Ha; set_solver);
    vm_compute; set_solver.
Defined.

Lemma unprefixed_sender_rejected_witness :
  let self := add_monitored_address __init__ "ab" in
  _should_process self (event_from "ab") = Ok false.
Proof.
  intros self.
  apply (unprefixed_sender_rejected self (event_from "ab") "ab").
  - intros a Ha. subst self. cbn in Ha.
    apply elem_of_union in Ha as [Ha%elem_of_singleton | Ha]; [| set_solver].
    subst a. split; reflexivity.
  - vm_compute. set_solver.
  - reflexivity.
  - reflexivity.
Defined.

End TransactionMonitorMoreExamples.
